(** * A shallow embedding of [main.py]: developers, projects and assignments

    The Python module defines five classes whose instances refer to one
    another (a [Developer] holds [Project]s, a [Project] holds
    [Developer]s).  None of the classes defines [__eq__], so [x in xs] and
    [xs.remove(x)] compare by object identity.  Objects are therefore
    modelled as references into a store, one heap per class, and every
    method is a computation in a state-and-exception monad over that
    store.  Text written by [print] is collected in the store as well. *)

From Stdlib Require Import ZArith Lia Ascii SpecFloat.
From stdpp Require Import base tactics option list strings functions gmap.

Open Scope string_scope.
Open Scope list_scope.

(** ** Exceptions and the method monad *)

(** The built-in exceptions the modelled code can raise.  The message is
    kept as in CPython, but no theorem below depends on its text. *)
Inductive exn : Type :=
  | ValueError (msg : string)
  | KeyError (key : string)
  | ZeroDivisionError (msg : string)
  | OverflowError (msg : string).

(** A call either returns a value or raises. *)
Inductive outcome (A : Type) : Type :=
  | Return (a : A)
  | Raise (e : exn).
Arguments Return {A} a.
Arguments Raise {A} e.

Definition is_ValueError {A} (o : outcome A) : Prop :=
  ∃ msg, o = Raise (ValueError msg).

(** ** Python's built-in list and string operations used by the module *)

Module Py.

(** [xs.remove(x)]: drops the first occurrence of [x]; [None] stands
    for the [ValueError] raised when there is none. *)
Fixpoint list_remove {A} `{EqDecision A} (x : A) (xs : list A)
  : option (list A) :=
  match xs with
  | [] => None
  | y :: ys => if decide (x = y) then Some ys
               else cons y <$> list_remove x ys
  end.

(** [sep.join(xs)]. *)
Fixpoint join (sep : string) (xs : list string) : string :=
  match xs with
  | [] => ""
  | [x] => x
  | x :: rest => x +:+ sep +:+ join sep rest
  end.

(** [t in s] for strings. *)
Definition contains (s t : string) : Prop :=
  ∃ before after, s = before +:+ t +:+ after.

End Py.

(** ** Python floats: [int / int] and [str(float)] *)

Module Float.
Local Open Scope Z_scope.

(** A finite binary64 number [(-1)^sign * mant * 2^exp]; [mant = 0] is a
    zero.  [true_div] only produces canonical ones: [2^52 <= mant < 2^53]
    with [-1074 <= exp <= 971], or a subnormal with [exp = -1074]. *)
Record float := { sign : bool; mant : Z; exp : Z }.

(** Round-half-even of the fraction [n / d], for [d > 0]. *)
Definition round_half_even (n d : Z) : Z :=
  let q := n / d in
  match 2 * (n mod d) ?= d with
  | Lt => q
  | Gt => q + 1
  | Eq => if Z.even q then q else q + 1
  end.

(** [floor (log2 (a / b))] for positive [a] and [b]. *)
Definition binade (a b : Z) : Z :=
  if b <=? a then Z.log2 (a / b)
  else - Z.log2_up (- (- b / a)).

(** The binary64 number nearest to [a / b] for positive [a] and [b]
    (ties to even), as mantissa and exponent; the exponent is not yet
    checked against the largest one. *)
Definition nearest (a b : Z) : Z * Z :=
  let e := Z.max (binade a b - 52) (-1074) in
  let m := if e <? 0 then round_half_even (a * 2 ^ (- e)) b
           else round_half_even a (b * 2 ^ e) in
  if m =? 2 ^ 53 then (2 ^ 52, e + 1) else (m, e).

(** [a / b] on Python integers: the correctly rounded quotient. *)
Definition true_div (a b : Z) : outcome float :=
  if b =? 0 then Raise (ZeroDivisionError "division by zero")
  else
    let negate := xorb (a <? 0) (b <? 0) in
    if a =? 0 then Return {| sign := negate; mant := 0; exp := 0 |}
    else
      let '(m, e) := nearest (Z.abs a) (Z.abs b) in
      if 971 <? e then
        Raise (OverflowError "integer division result too large for a float")
      else Return {| sign := negate; mant := m; exp := e |}.

(** [x * n] for a float [x] and an integer [n > 0] converted exactly
    (one rounding of the exact product). *)
Definition mul_int (x : float) (n : Z) : float :=
  if mant x =? 0 then x
  else
    let '(m, e) := nearest (mant x * n * 2 ^ Z.max (exp x) 0)
                           (2 ^ Z.max (- exp x) 0) in
    {| sign := sign x; mant := m; exp := e |}.

(** *** Shortest decimal digits that read back as the same float *)

(** State of the digit generation: the value still to be printed is
    [rem / den], and a printed prefix reads back as the same float when it is
    within [mlo / den] below or [mhi / den] above; [incl] tells whether the
    two end points of that interval are included. *)
Record gen := { rem : Z; den : Z; mlo : Z; mhi : Z; incl : bool }.

(** Adds one to a decimal number given by its digits, most significant
    last; the carry out is returned as a flag. *)
Fixpoint incr_rev (ds : list Z) : list Z * bool :=
  match ds with
  | [] => ([], true)
  | d :: rest =>
      if d =? 9 then incr_rev rest
      else ((d + 1) :: rest, false)
  end.

(** One digit at a time; [acc] holds the digits produced so far, last one
    first.  Returns the digits and whether rounding carried into a new
    leading digit. *)
Fixpoint digits_loop (fuel : nat) (g : gen) (acc : list Z)
  : list Z * bool :=
  let dig := rem g / den g in
  let r := rem g mod den g in
  let low_ok := (r <? mlo g) || (incl g && (r =? mlo g)) in
  let high_ok := (den g <? r + mhi g) || (incl g && (r + mhi g =? den g)) in
  let up := incr_rev (dig :: acc) in
  let down := (dig :: acc, false) in
  if low_ok && high_ok then
    match 2 * r ?= den g with
    | Lt => down
    | Gt => up
    | Eq => if Z.even dig then down else up
    end
  else if low_ok then down
  else if high_ok then up
  else
    match fuel with
    | O => down
    | S fuel' =>
        digits_loop fuel'
          {| rem := 10 * r; den := den g; mlo := 10 * mlo g; mhi := 10 * mhi g;
             incl := incl g |}
          (dig :: acc)
    end.

(** [10^k <= n / d] *)
Definition pow10_le (k n d : Z) : bool :=
  if 0 <=? k then 10 ^ k * d <=? n else d <=? n * 10 ^ (- k).

(** [floor (log10 (n / d))], from an estimate that is off by at most
    one. *)
Definition decimal_exponent (n d : Z) : Z :=
  let k := (binade n d * 1233) / 4096 in
  if pow10_le (k + 1) n d then k + 1
  else if pow10_le k n d then k
  else k - 1.

(** The shortest digit string and the position of the decimal point
    ([0.d1d2... * 10^decpt]) of a positive float [m * 2^e]. *)
Definition shortest (m e : Z) : list Z * Z :=
  let up := 2 ^ Z.max e 0 in
  let down := 2 ^ Z.max (- e) 0 in
  let boundary := (m =? 2 ^ 52) && (-1074 <? e) in
  let n := 4 * m * up in
  let d := 4 * down in
  let lo := (if boundary then 1 else 2) * up in
  let hi := 2 * up in
  let k := decimal_exponent n d in
  let scale_up := 10 ^ Z.max (- k) 0 in
  let scale_down := 10 ^ Z.max k 0 in
  let '(ds, carry) :=
    digits_loop 800
      {| rem := n * scale_up; den := d * scale_down;
         mlo := lo * scale_up; mhi := hi * scale_up; incl := Z.even m |}
      [] in
  if carry then ([1], k + 2) else (rev ds, k + 1).

Definition digit_char (d : Z) : string :=
  String (Ascii.ascii_of_nat (48 + Z.to_nat d)) "".

Definition digits_str (ds : list Z) : string :=
  foldr (λ d s, digit_char d +:+ s) "" ds.

Fixpoint nat_digits (fuel : nat) (n : Z) (acc : list Z) : list Z :=
  match fuel with
  | O => acc
  | S fuel' =>
      if n <? 10 then n :: acc
      else nat_digits fuel' (n / 10) (n mod 10 :: acc)
  end.

(** [str(n)] for a non-negative integer. *)
Definition str_int (n : Z) : string :=
  digits_str (nat_digits (S (Z.to_nat (Z.log2 n))) n []).

Definition zeros (n : Z) : string :=
  digits_str (replicate (Z.to_nat n) 0).

(** [repr] format of CPython: plain notation when
    [1e-4 <= |x| < 1e16], exponent notation otherwise. *)
Definition format_repr (ds : list Z) (decpt : Z) : string :=
  let nd := Z.of_nat (length ds) in
  if (decpt <=? -4) || (16 <? decpt) then
    let e := decpt - 1 in
    let frac := match ds with
                | _ :: (_ :: _) as tl => "." +:+ digits_str tl
                | _ => ""
                end in
    let e_digits := str_int (Z.abs e) in
    digits_str (take 1 ds) +:+ frac +:+ "e"
      +:+ (if e <? 0 then "-" else "+")
      +:+ (if Z.abs e <? 10 then "0" else "") +:+ e_digits
  else if decpt <=? 0 then
    "0." +:+ zeros (- decpt) +:+ digits_str ds
  else if nd <=? decpt then
    digits_str ds +:+ zeros (decpt - nd) +:+ ".0"
  else
    digits_str (take (Z.to_nat decpt) ds) +:+ "."
      +:+ digits_str (drop (Z.to_nat decpt) ds).

(** [str(x)], which for floats is [repr(x)]. *)
Definition str (x : float) : string :=
  (if sign x then "-" else "") +:+
  (if mant x =? 0 then "0.0"
   else let '(ds, decpt) := shortest (mant x) (exp x) in
        format_repr ds decpt).

(** The same number in the Standard Library's specification of IEEE 754
    arithmetic, and the library's binary64 division of two integers that
    are floats themselves (below [2^53]). *)
Definition to_spec (x : float) : SpecFloat.spec_float :=
  if mant x =? 0 then SpecFloat.S754_zero (sign x)
  else SpecFloat.S754_finite (sign x) (Z.to_pos (mant x)) (exp x).

Definition ieee_div (a b : positive) : SpecFloat.spec_float :=
  SpecFloat.SFdiv 53 1024 (SpecFloat.S754_finite false a 0)
    (SpecFloat.S754_finite false b 0).

Definition ieee_mul (x : SpecFloat.spec_float) (n : positive)
  : SpecFloat.spec_float :=
  SpecFloat.SFmul 53 1024 x (SpecFloat.S754_finite false n 0).

End Float.

(** ** [datetime.strptime(s, "%m/%d/%Y")] and the order on its results *)

Module Datetime.
Local Open Scope nat_scope.

(** The time of day is midnight for every value this format produces, so
    a parsed value is its calendar date. *)
Record datetime := { year : nat; month : nat; day : nat }.

(** [a < b] *)
Definition lt (a b : datetime) : bool :=
  (year a <? year b)
  || ((year a =? year b)
      && ((month a <? month b)
          || ((month a =? month b) && (day a <? day b)))).

(** *** The regular expression the format compiles to

    [_strptime] turns the format into
    [(?P<m>1[0-2]|0[1-9]|[1-9])/(?P<d>3[0-1]|[1-2]\d|0[1-9]|[1-9]| [1-9])/(?P<Y>\d\d\d\d)]
    and matches it at the start of the string.  A matcher lists, in the
    order a backtracking engine tries them, the ways to match a prefix:
    the text matched and the rest. *)
Definition matcher := list ascii → list (list ascii * list ascii).

Definition code (c : ascii) : nat := nat_of_ascii c.

(** A character class [[lo-hi]]. *)
Definition range (lo hi : ascii) : matcher :=
  λ s, match s with
       | c :: rest =>
           if (code lo <=? code c) && (code c <=? code hi)
           then [([c], rest)] else []
       | [] => []
       end.

Definition lit (c : ascii) : matcher := range c c.

(** [\d]; strings here hold code points below 256, where the decimal
    digits are [0] to [9]. *)
Definition digit : matcher := range "0" "9".

Definition seq (m1 m2 : matcher) : matcher :=
  λ s, '(t1, r1) ← m1 s; '(t2, r2) ← m2 r1; [(t1 ++ t2, r2)].

Definition alt (m1 m2 : matcher) : matcher := λ s, m1 s ++ m2 s.

Definition re_m : matcher :=
  alt (seq (lit "1") (range "0" "2"))
   (alt (seq (lit "0") (range "1" "9"))
        (range "1" "9")).

Definition re_d : matcher :=
  alt (seq (lit "3") (range "0" "1"))
   (alt (seq (range "1" "2") digit)
    (alt (seq (lit "0") (range "1" "9"))
     (alt (range "1" "9")
          (seq (lit " ") (range "1" "9"))))).

Definition re_Y : matcher := seq digit (seq digit (seq digit digit)).

(** The first match of the whole pattern: the three groups and what is
    left of the string. *)
Definition re_match (s : list ascii)
  : option (list ascii * list ascii * list ascii * list ascii) :=
  head ('(m, r1) ← re_m s; '(_, r2) ← lit "/" r1;
        '(d, r3) ← re_d r2; '(_, r4) ← lit "/" r3;
        '(y, r5) ← re_Y r4; [(m, d, y, r5)]).

(** [int(text)] on a group: decimal digits, after an optional blank. *)
Definition int (text : list ascii) : nat :=
  foldl (λ n c, if (code "0" <=? code c) && (code c <=? code "9")
                then 10 * n + (code c - code "0") else n) 0 text.

Definition is_leap (y : nat) : bool :=
  (y mod 4 =? 0) && (negb (y mod 100 =? 0) || (y mod 400 =? 0)).

Definition days_in_month (y m : nat) : nat :=
  match m with
  | 2 => if is_leap y then 29 else 28
  | 4 | 6 | 9 | 11 => 30
  | _ => 31
  end.

(** [datetime.strptime(data_string, "%m/%d/%Y")] *)
Definition strptime (data_string : string) : outcome datetime :=
  match re_match (String.list_ascii_of_string data_string) with
  | None =>
      Raise (ValueError ("time data '" +:+ data_string
                         +:+ "' does not match format '%m/%d/%Y'"))
  | Some (m, d, y, rest) =>
      match rest with
      | _ :: _ =>
          Raise (ValueError ("unconverted data remains: "
                             +:+ String.string_of_list_ascii rest))
      | [] =>
          let year := int y in
          let month := int m in
          let day := int d in
          if year =? 0 then
            Raise (ValueError "year 0 is out of range")
          else if days_in_month year month <? day then
            Raise (ValueError "day is out of range for month")
          else Return {| year := year; month := month; day := day |}
      end
  end.

End Datetime.


(** ** Objects *)

Definition dev_ref := nat.
Definition proj_ref := nat.
Definition asg_ref := nat.
Definition qa_ref := nat.
Definition pm_ref := nat.

(** Values stored in a task record. *)
Inductive value : Type :=
  | VNone
  | VBool (b : bool)
  | VInt (z : Z)
  | VStr (s : string).

(** Python truthiness, as used by [if task["is_done"]]. *)
Definition truthy (v : value) : bool :=
  match v with
  | VNone => false
  | VBool b => b
  | VInt z => negb (z =? 0)%Z
  | VStr s => negb (bool_decide (s = ""))
  end.

(** A task record is a dictionary with string keys. *)
Abbreviation Task := (gmap string value).

Record Developer := {
  dev_id : nat;
  dev_full_name : string;
  dev_address : string;
  dev_email : string;
  dev_phone_number : string;
  dev_position : string;
  dev_salary : string;
  projects : list proj_ref;
  assignments : list asg_ref;
}.

(** [received_tasks] is a [dict]: keys are unique and iteration follows
    insertion order, hence an association list. *)
Record Assignment := {
  description : string;
  received_tasks : list (string * Task);
  status : string;
  is_done : bool;
}.

Record Project := {
  title : string;
  start_date : string;
  tasks_list : list Task;
  developers : list dev_ref;
  limit : Z;
}.

Record QAEngineer := {
  qa_id : nat;
  qa_full_name : string;
  qa_address : string;
  qa_email : string;
  qa_phone_number : string;
  qa_position : string;
  qa_salary : string;
  qa_projects : list proj_ref;
}.

Record ProjectManager := {
  pm_id : nat;
  pm_full_name : string;
  pm_address : string;
  pm_email : string;
  pm_phone_number : string;
  pm_position : string;
  pm_salary : string;
  pm_project : proj_ref;
}.

(** ** The store *)

(** One heap per class, the three class-level [id_iter] counters, the next
    unused address and the lines printed so far.  A reference held by
    Python code always denotes an object, so heaps are total. *)
Record Store := {
  developer : dev_ref → Developer;
  assignment : asg_ref → Assignment;
  project : proj_ref → Project;
  qa_engineer : qa_ref → QAEngineer;
  project_manager : pm_ref → ProjectManager;
  Developer_id_iter : nat;
  QAEngineer_id_iter : nat;
  ProjectManager_id_iter : nat;
  next_ref : nat;
  stdout : list string;
}.

Definition M (A : Type) : Type := Store → outcome A * Store.

Definition ret {A} (a : A) : M A := λ s, (Return a, s).
Definition raise {A} (e : exn) : M A := λ s, (Raise e, s).
Definition bind {A B} (m : M A) (k : A → M B) : M B :=
  λ s, match m s with
       | (Return a, s') => k a s'
       | (Raise e, s') => (Raise e, s')
       end.

(** [try: body except ValueError: handler]; any other exception
    propagates. *)
Definition try_except_ValueError (body handler : M unit) : M unit :=
  λ s, match body s with
       | (Raise (ValueError _), s') => handler s'
       | r => r
       end.

Declare Scope py_scope.
Delimit Scope py_scope with py.
Notation "x '<-' m ';;' k" := (bind m (λ x, k))
  (at level 100, m at next level, right associativity) : py_scope.
Notation "m ';;' k" := (bind m (λ _, k))
  (at level 100, right associativity) : py_scope.
Open Scope py_scope.

Definition get_developer (r : dev_ref) : M Developer :=
  λ s, (Return (developer s r), s).
Definition get_assignment (r : asg_ref) : M Assignment :=
  λ s, (Return (assignment s r), s).
Definition get_project (r : proj_ref) : M Project :=
  λ s, (Return (project s r), s).
Definition get_project_manager (r : pm_ref) : M ProjectManager :=
  λ s, (Return (project_manager s r), s).
Definition get_qa_engineer (r : qa_ref) : M QAEngineer :=
  λ s, (Return (qa_engineer s r), s).

Definition with_developer (h : dev_ref → Developer) (s : Store) : Store :=
  {| developer := h; assignment := assignment s; project := project s;
     qa_engineer := qa_engineer s; project_manager := project_manager s;
     Developer_id_iter := Developer_id_iter s;
     QAEngineer_id_iter := QAEngineer_id_iter s;
     ProjectManager_id_iter := ProjectManager_id_iter s;
     next_ref := next_ref s; stdout := stdout s |}.

Definition with_assignment (h : asg_ref → Assignment) (s : Store) : Store :=
  {| developer := developer s; assignment := h; project := project s;
     qa_engineer := qa_engineer s; project_manager := project_manager s;
     Developer_id_iter := Developer_id_iter s;
     QAEngineer_id_iter := QAEngineer_id_iter s;
     ProjectManager_id_iter := ProjectManager_id_iter s;
     next_ref := next_ref s; stdout := stdout s |}.

Definition with_project (h : proj_ref → Project) (s : Store) : Store :=
  {| developer := developer s; assignment := assignment s; project := h;
     qa_engineer := qa_engineer s; project_manager := project_manager s;
     Developer_id_iter := Developer_id_iter s;
     QAEngineer_id_iter := QAEngineer_id_iter s;
     ProjectManager_id_iter := ProjectManager_id_iter s;
     next_ref := next_ref s; stdout := stdout s |}.

Definition with_stdout (out : list string) (s : Store) : Store :=
  {| developer := developer s; assignment := assignment s;
     project := project s;
     qa_engineer := qa_engineer s; project_manager := project_manager s;
     Developer_id_iter := Developer_id_iter s;
     QAEngineer_id_iter := QAEngineer_id_iter s;
     ProjectManager_id_iter := ProjectManager_id_iter s;
     next_ref := next_ref s; stdout := out |}.

Definition with_qa_engineer (h : qa_ref → QAEngineer) (s : Store) : Store :=
  {| developer := developer s; assignment := assignment s;
     project := project s;
     qa_engineer := h; project_manager := project_manager s;
     Developer_id_iter := Developer_id_iter s;
     QAEngineer_id_iter := QAEngineer_id_iter s;
     ProjectManager_id_iter := ProjectManager_id_iter s;
     next_ref := next_ref s; stdout := stdout s |}.

Definition with_project_manager (h : pm_ref → ProjectManager) (s : Store)
  : Store :=
  {| developer := developer s; assignment := assignment s;
     project := project s;
     qa_engineer := qa_engineer s; project_manager := h;
     Developer_id_iter := Developer_id_iter s;
     QAEngineer_id_iter := QAEngineer_id_iter s;
     ProjectManager_id_iter := ProjectManager_id_iter s;
     next_ref := next_ref s; stdout := stdout s |}.

Definition with_counters (dev qa pm next : nat) (s : Store) : Store :=
  {| developer := developer s; assignment := assignment s;
     project := project s;
     qa_engineer := qa_engineer s; project_manager := project_manager s;
     Developer_id_iter := dev;
     QAEngineer_id_iter := qa;
     ProjectManager_id_iter := pm;
     next_ref := next; stdout := stdout s |}.

(** The address of a newly created object. *)
Definition fresh : M nat :=
  λ s, (Return (next_ref s),
        with_counters (Developer_id_iter s) (QAEngineer_id_iter s)
          (ProjectManager_id_iter s) (S (next_ref s)) s).

(** [next(self.id_iter)] in each of the three classes that count their
    instances. *)
Definition next_Developer_id : M nat :=
  λ s, (Return (Developer_id_iter s),
        with_counters (S (Developer_id_iter s)) (QAEngineer_id_iter s)
          (ProjectManager_id_iter s) (next_ref s) s).

Definition next_QAEngineer_id : M nat :=
  λ s, (Return (QAEngineer_id_iter s),
        with_counters (Developer_id_iter s) (S (QAEngineer_id_iter s))
          (ProjectManager_id_iter s) (next_ref s) s).

Definition next_ProjectManager_id : M nat :=
  λ s, (Return (ProjectManager_id_iter s),
        with_counters (Developer_id_iter s) (QAEngineer_id_iter s)
          (S (ProjectManager_id_iter s)) (next_ref s) s).

(** A built-in that returns or raises without touching the store. *)
Definition lift {A} (o : outcome A) : M A := λ s, (o, s).

(** [print(line)]. *)
Definition print (line : string) : M unit :=
  λ s, (Return tt, with_stdout (stdout s ++ [line]) s).

(** Assignment to the attributes the methods mutate. *)
Definition set_projects (r : dev_ref) (ps : list proj_ref) : M unit :=
  λ s, let d := developer s r in
       (Return tt,
        with_developer
          (<[r := {| dev_id := dev_id d; dev_full_name := dev_full_name d;
                     dev_address := dev_address d; dev_email := dev_email d;
                     dev_phone_number := dev_phone_number d;
                     dev_position := dev_position d;
                     dev_salary := dev_salary d;
                     projects := ps; assignments := assignments d |}]>
             (developer s)) s).

Definition set_developers (r : proj_ref) (ds : list dev_ref) : M unit :=
  λ s, let p := project s r in
       (Return tt,
        with_project
          (<[r := {| title := title p; start_date := start_date p;
                     tasks_list := tasks_list p; developers := ds;
                     limit := limit p |}]> (project s)) s).

Definition set_status (r : asg_ref) (st : string) : M unit :=
  λ s, let a := assignment s r in
       (Return tt,
        with_assignment
          (<[r := {| description := description a;
                     received_tasks := received_tasks a;
                     status := st; is_done := is_done a |}]>
             (assignment s)) s).

(** ** class Developer *)

Module Developer.

Definition init (full_name address email phone_number position salary : string)
  : M dev_ref :=
  self <- fresh;;
  id <- next_Developer_id;;
  (λ s, (Return self,
         with_developer
           (<[self := {| dev_id := id; dev_full_name := full_name;
                         dev_address := address; dev_email := email;
                         dev_phone_number := phone_number;
                         dev_position := position; dev_salary := salary;
                         projects := []; assignments := [] |}]>
              (developer s)) s)).

(** [return [project.title for project in self.projects]] *)
Definition get_assigned_projects (self : dev_ref) : M (list string) :=
  d <- get_developer self;;
  λ s, (Return ((λ p, title (project s p)) <$> projects d), s).

Definition assign (self : dev_ref) (project : proj_ref) : M unit :=
  d <- get_developer self;;
  p <- get_project project;;
  if decide (project ∈ projects d) then
    raise (ValueError ("Project " +:+ title p +:+ " already exists"))
  else
    set_projects self (projects d ++ [project]);;
    print ("Project " +:+ title p +:+ " has been added to developer "
           +:+ dev_full_name d).

Definition cancel_appointment (self : dev_ref) (project : proj_ref)
  : M unit :=
  d <- get_developer self;;
  p <- get_project project;;
  if decide (project ∈ projects d) then
    match Py.list_remove project (projects d) with
    | Some ps =>
        set_projects self ps;;
        print ("Project " +:+ title p
               +:+ " has been removed from developer "
               +:+ dev_full_name d)
    | None => raise (ValueError "list.remove(x): x not in list")
    end
  else ret tt.

(** [__str__] *)
Definition to_str (self : dev_ref) : M string :=
  d <- get_developer self;;
  ret ("Developer " +:+ dev_full_name d).

End Developer.

(** ** class Assignment *)

Module Assignment.

(** The object [__init__] leaves behind. *)
Definition initial (description : string) : Assignment :=
  {| description := description; received_tasks := [];
     status := ""; is_done := false |}.

Definition init (description : string) : M asg_ref :=
  self <- fresh;;
  (λ s, (Return self,
         with_assignment (<[self := initial description]> (assignment s)) s)).

(** [[v for k, v in items if datetime.strptime(k, "%m/%d/%Y") < date_to_compare]]:
    the keys are parsed in iteration order and the first one that does
    not parse ends the comprehension. *)
Fixpoint tasks_before (date_to_compare : Datetime.datetime)
    (items : list (string * Task)) : outcome (list Task) :=
  match items with
  | [] => Return []
  | (k, v) :: rest =>
      match Datetime.strptime k with
      | Raise e => Raise e
      | Return d =>
          match tasks_before date_to_compare rest with
          | Raise e => Raise e
          | Return vs =>
              Return (if Datetime.lt d date_to_compare then v :: vs else vs)
          end
      end
  end.

Definition get_tasks_to_date (self : asg_ref) (date : string)
  : M (list Task) :=
  a <- get_assignment self;;
  date_to_compare <- lift (Datetime.strptime date);;
  lift (tasks_before date_to_compare (received_tasks a)).

(** [[task for _, task in items if task["is_done"]]]: a task without
    the key raises [KeyError]. *)
Fixpoint done_tasks (items : list (string * Task)) : outcome (list Task) :=
  match items with
  | [] => Return []
  | (_, task) :: rest =>
      match task !! "is_done" with
      | None => Raise (KeyError "is_done")
      | Some flag =>
          match done_tasks rest with
          | Raise e => Raise e
          | Return ts => Return (if truthy flag then task :: ts else ts)
          end
      end
  end.

Definition len {A} (xs : list A) : Z := Z.of_nat (length xs).

Definition calculate_status (self : asg_ref) : M unit :=
  a <- get_assignment self;;
  tasks <- lift (done_tasks (received_tasks a));;
  match tasks with
  | _ :: _ =>
      q <- lift (Float.true_div (100 * len tasks) (len (received_tasks a)));;
      set_status self (Float.str q +:+ "%")
  | [] => set_status self "0%"
  end.

End Assignment.

(** ** class Project *)

Module Project.

(** [today] is what [datetime.now().strftime("%m/%d/%Y")] gives at the
    time of the call. *)
Definition init (today : string) (title : string) (limit : Z) : M proj_ref :=
  self <- fresh;;
  (λ s, (Return self,
         with_project
           (<[self := {| title := title; start_date := today;
                         tasks_list := []; developers := [];
                         limit := limit |}]> (project s)) s)).

Definition add_developer (self : proj_ref) (developer : dev_ref) : M unit :=
  try_except_ValueError
    (Developer.assign developer self)
    (d <- get_developer developer;;
     print ("Developer " +:+ dev_full_name d +:+ " exists"));;
  p <- get_project self;;
  set_developers self (developers p ++ [developer]).

Definition remove_developer (self : proj_ref) (developer : dev_ref)
  : M unit :=
  Developer.cancel_appointment developer self;;
  p <- get_project self;;
  match Py.list_remove developer (developers p) with
  | Some ds => set_developers self ds
  | None => raise (ValueError "list.remove(x): x not in list")
  end.

End Project.

(** ** class QAEngineer *)

Module QAEngineer.

Definition init (full_name address email phone_number position salary : string)
  : M qa_ref :=
  self <- fresh;;
  id <- next_QAEngineer_id;;
  (λ s, (Return self,
         with_qa_engineer
           (<[self := {| qa_id := id; qa_full_name := full_name;
                         qa_address := address; qa_email := email;
                         qa_phone_number := phone_number;
                         qa_position := position; qa_salary := salary;
                         qa_projects := [] |}]> (qa_engineer s)) s)).

Definition test_feature (self : qa_ref) (assignment : asg_ref) : M string :=
  q <- get_qa_engineer self;;
  a <- get_assignment assignment;;
  ret ("Assignment " +:+ description a +:+ " has been tested by "
       +:+ qa_full_name q).

End QAEngineer.

(** ** class ProjectManager *)

Module ProjectManager.

Definition init (full_name address email phone_number position salary : string)
    (project : proj_ref) : M pm_ref :=
  self <- fresh;;
  id <- next_ProjectManager_id;;
  (λ s, (Return self,
         with_project_manager
           (<[self := {| pm_id := id; pm_full_name := full_name;
                         pm_address := address; pm_email := email;
                         pm_phone_number := phone_number;
                         pm_position := position; pm_salary := salary;
                         pm_project := project |}]> (project_manager s)) s)).

Definition discuss_progress (self : pm_ref) (developer : dev_ref) : M string :=
  pm <- get_project_manager self;;
  d <- get_developer developer;;
  descriptions <-
    (λ s, (Return ((λ a, description (assignment s a)) <$> assignments d), s));;
  let descriptions := Py.join " " descriptions in
  ret ("Task's progress of " +:+ descriptions +:+ " has been tested by "
       +:+ pm_full_name pm).

End ProjectManager.

(** ** A store to run scenarios in *)

(** Before any object is created every address holds a blank object and
    the counters are at their start. *)
Definition blank_store : Store :=
  {| developer := λ _, {| dev_id := 0; dev_full_name := "";
                          dev_address := ""; dev_email := "";
                          dev_phone_number := ""; dev_position := "";
                          dev_salary := ""; projects := [];
                          assignments := [] |};
     assignment := λ _, Assignment.initial "";
     project := λ _, {| title := ""; start_date := ""; tasks_list := [];
                        developers := []; limit := 0 |};
     qa_engineer := λ _, {| qa_id := 0; qa_full_name := "";
                            qa_address := ""; qa_email := "";
                            qa_phone_number := ""; qa_position := "";
                            qa_salary := ""; qa_projects := [] |};
     project_manager := λ _, {| pm_id := 0; pm_full_name := "";
                                pm_address := ""; pm_email := "";
                                pm_phone_number := ""; pm_position := "";
                                pm_salary := ""; pm_project := 0 |};
     Developer_id_iter := 0; QAEngineer_id_iter := 0;
     ProjectManager_id_iter := 0; next_ref := 0; stdout := [] |}.

(** The store a computation ends in, and what it returns. *)
Definition exec {A} (m : M A) (s : Store) : Store := (m s).2.
Definition eval {A} (m : M A) (s : Store) : outcome A := (m s).1.

(** [received_tasks[key] = task], done by client code: a new key goes to
    the end, an existing key keeps its place. *)
Fixpoint dict_set (key : string) (task : Task) (items : list (string * Task))
  : list (string * Task) :=
  match items with
  | [] => [(key, task)]
  | (k, v) :: rest =>
      if decide (k = key) then (k, task) :: rest
      else (k, v) :: dict_set key task rest
  end.

Definition set_task (r : asg_ref) (key : string) (task : Task) : M unit :=
  λ s, let a := assignment s r in
       (Return tt,
        with_assignment
          (<[r := {| description := description a;
                     received_tasks := dict_set key task (received_tasks a);
                     status := status a; is_done := is_done a |}]>
             (assignment s)) s).

(** [developer.assignments.append(a)], done by client code. *)
Definition add_assignment (r : dev_ref) (a : asg_ref) : M unit :=
  λ s, let d := developer s r in
       (Return tt,
        with_developer
          (<[r := {| dev_id := dev_id d; dev_full_name := dev_full_name d;
                     dev_address := dev_address d; dev_email := dev_email d;
                     dev_phone_number := dev_phone_number d;
                     dev_position := dev_position d;
                     dev_salary := dev_salary d;
                     projects := projects d;
                     assignments := assignments d ++ [a] |}]>
             (developer s)) s).

(** Two projects that share the title "Website", and a developer
    assigned to the first of them. *)
Definition two_websites : M (dev_ref * proj_ref * proj_ref) :=
  first <- Project.init "09/30/2022" "Website" 2;;
  second <- Project.init "09/30/2022" "Website" 2;;
  alice <- Developer.init "Alice" "" "" "" "Junior" "0";;
  Developer.assign alice first;;
  ret (alice, first, second).

(** A developer and a project, both new. *)
Definition alice_and_website (today : string) : M (dev_ref * proj_ref) :=
  alice <- Developer.init "Alice" "" "" "" "Junior" "0";;
  website <- Project.init today "Website" 2;;
  ret (alice, website).

(** ** Vocabulary of the statements about assignments *)

(** The task record carries a completion flag. *)
Definition has_flag (task : Task) : Prop := is_Some (task !! "is_done").

(** The completion flag is there and set. *)
Definition completed (task : Task) : bool :=
  match task !! "is_done" with
  | Some flag => truthy flag
  | None => false
  end.

(** A percentage string: something, then a percent sign. *)
Definition is_percentage (st : string) : Prop :=
  ∃ body, body ≠ "" ∧ st = body +:+ "%".

(** The key reads as a date in the month/day/year format. *)
Definition parses (key : string) : Prop :=
  ∃ d, Datetime.strptime key = Return d.

(** The key reads as a date strictly before [d]. *)
Definition earlier (d : Datetime.datetime) (key : string) : bool :=
  match Datetime.strptime key with
  | Return dk => Datetime.lt dk d
  | Raise _ => false
  end.

(** An assignment with a finished task dated 09/01/2022 and an open one
    dated 10/01/2022. *)
Definition september_and_october : M asg_ref :=
  a <- Assignment.init "Fix bug";;
  set_task a "09/01/2022" {["is_done" := VBool true]};;
  set_task a "10/01/2022" {["is_done" := VBool false]};;
  ret a.

(** An assignment whose two tasks are both finished. *)
Definition all_finished : M asg_ref :=
  a <- Assignment.init "Write docs";;
  set_task a "09/01/2022" {["is_done" := VBool true]};;
  set_task a "10/01/2022" {["is_done" := VBool true]};;
  ret a.

(** A manager of project "Website" and a developer with the assignments
    "Fix bug" and "Write docs". *)
Definition manager_and_busy_developer : M (pm_ref * dev_ref) :=
  website <- Project.init "09/30/2022" "Website" 2;;
  manager <- ProjectManager.init "Bob" "" "" "" "Lead" "0" website;;
  developer <- Developer.init "Alice" "" "" "" "Junior" "0";;
  fix_bug <- Assignment.init "Fix bug";;
  write_docs <- Assignment.init "Write docs";;
  add_assignment developer fix_bug;;
  add_assignment developer write_docs;;
  ret (manager, developer).

(** An assignment with a key that is no month/day/year date, and one
    with a task record that lacks the flag. *)
Definition iso_dated : M asg_ref :=
  a <- Assignment.init "Fix bug";;
  set_task a "2022-09-01" {["is_done" := VBool true]};;
  ret a.

Definition unflagged : M asg_ref :=
  a <- Assignment.init "Fix bug";;
  set_task a "09/01/2022" {["title" := VStr "reproduce"]};;
  ret a.

(** ** Vocabulary of the statements about project lists and rosters *)

(** [xs] after [xs.remove(x)] where that returns, [xs] itself where it
    raises. *)
Definition without {A} `{EqDecision A} (x : A) (xs : list A) : list A :=
  default xs (Py.list_remove x xs).

(** What no method assigns to: the attributes of a developer other than
    the project list, and those of a project other than the roster. *)
Definition dev_fixed (d : Developer)
  : nat * string * string * string * string * string * string
    * list asg_ref :=
  (dev_id d, dev_full_name d, dev_address d, dev_email d,
   dev_phone_number d, dev_position d, dev_salary d, assignments d).

Definition proj_fixed (p : Project) : string * string * list Task * Z :=
  (title p, start_date p, tasks_list p, limit p).

(** [for developer in ds: project.add_developer(developer)] *)
Fixpoint add_developers (self : proj_ref) (ds : list dev_ref) : M unit :=
  match ds with
  | [] => ret tt
  | d :: rest => Project.add_developer self d;; add_developers self rest
  end.

(** ** Client programs *)

(** A call a client of the module can make: a constructor or a method. *)
Inductive call : Type :=
  | NewDeveloper (full_name address email phone_number position salary : string)
  | NewQAEngineer (full_name address email phone_number position salary : string)
  | NewProjectManager
      (full_name address email phone_number position salary : string)
      (project : proj_ref)
  | NewProject (today title : string) (limit : Z)
  | NewAssignment (description : string)
  | GetAssignedProjects (self : dev_ref)
  | Assign (self : dev_ref) (project : proj_ref)
  | CancelAppointment (self : dev_ref) (project : proj_ref)
  | Str (self : dev_ref)
  | GetTasksToDate (self : asg_ref) (date : string)
  | CalculateStatus (self : asg_ref)
  | AddDeveloper (self : proj_ref) (developer : dev_ref)
  | RemoveDeveloper (self : proj_ref) (developer : dev_ref)
  | TestFeature (self : qa_ref) (assignment : asg_ref)
  | DiscussProgress (self : pm_ref) (developer : dev_ref).

(** The call, its result dropped. *)
Definition perform (c : call) : M unit :=
  match c with
  | NewDeveloper full_name address email phone_number position salary =>
      Developer.init full_name address email phone_number position salary;;
      ret tt
  | NewQAEngineer full_name address email phone_number position salary =>
      QAEngineer.init full_name address email phone_number position salary;;
      ret tt
  | NewProjectManager full_name address email phone_number position salary
      project =>
      ProjectManager.init full_name address email phone_number position
        salary project;;
      ret tt
  | NewProject today title limit => Project.init today title limit;; ret tt
  | NewAssignment description => Assignment.init description;; ret tt
  | GetAssignedProjects self => Developer.get_assigned_projects self;; ret tt
  | Assign self project => Developer.assign self project
  | CancelAppointment self project => Developer.cancel_appointment self project
  | Str self => Developer.to_str self;; ret tt
  | GetTasksToDate self date => Assignment.get_tasks_to_date self date;; ret tt
  | CalculateStatus self => Assignment.calculate_status self
  | AddDeveloper self developer => Project.add_developer self developer
  | RemoveDeveloper self developer => Project.remove_developer self developer
  | TestFeature self assignment => QAEngineer.test_feature self assignment;; ret tt
  | DiscussProgress self developer =>
      ProjectManager.discuss_progress self developer;; ret tt
  end.

(** A client that makes the calls one after the other and carries on
    after an exception. *)
Definition perform_all (cs : list call) (s : Store) : Store :=
  foldl (λ s c, exec (perform c) s) s cs.

(** The three classes whose instances carry an identifier. *)
Inductive person : Type := IsDeveloper | IsQAEngineer | IsProjectManager.

(** The call constructs an instance of the class. *)
Definition constructs (k : person) (c : call) : bool :=
  match k, c with
  | IsDeveloper, NewDeveloper _ _ _ _ _ _ => true
  | IsQAEngineer, NewQAEngineer _ _ _ _ _ _ => true
  | IsProjectManager, NewProjectManager _ _ _ _ _ _ _ => true
  | _, _ => false
  end.

(** [_id] of the instance at an address, and the value [next(id_iter)]
    will give next for the class. *)
Definition id_of (k : person) (s : Store) (r : nat) : nat :=
  match k with
  | IsDeveloper => dev_id (developer s r)
  | IsQAEngineer => qa_id (qa_engineer s r)
  | IsProjectManager => pm_id (project_manager s r)
  end.

Definition id_iter (k : person) (s : Store) : nat :=
  match k with
  | IsDeveloper => Developer_id_iter s
  | IsQAEngineer => QAEngineer_id_iter s
  | IsProjectManager => ProjectManager_id_iter s
  end.

(** The instances of a class the calls create, in the order of
    creation. *)
Fixpoint created (k : person) (cs : list call) (s : Store) : list nat :=
  match cs with
  | [] => []
  | c :: rest =>
      (if constructs k c then [next_ref s] else [])
      ++ created k rest (exec (perform c) s)
  end.

(** What no method assigns to in an assignment. *)
Definition asg_fixed (a : Assignment) : string * list (string * Task) * bool :=
  (description a, received_tasks a, is_done a).

(** An assignment no client has written to: no tasks, not done, and the
    status either still empty or "0%". *)
Definition untouched (x : Assignment) : Prop :=
  received_tasks x = [] ∧ is_done x = false
  ∧ (status x = "" ∨ status x = "0%").

(** ** Calendar dates and how [strftime] writes them *)

(** A date of the proleptic Gregorian calendar between the years 1 and
    9999, the range of [datetime]. *)
Definition valid_date (d : Datetime.datetime) : Prop :=
  (1 ≤ Datetime.year d)%nat ∧ (Z.of_nat (Datetime.year d) ≤ 9999)%Z
  ∧ (1 ≤ Datetime.month d ≤ 12)%nat
  ∧ (1 ≤ Datetime.day d
     ≤ Datetime.days_in_month (Datetime.year d) (Datetime.month d))%nat.

(** The year is written with four digits, without padding. *)
Definition four_digit_year (d : Datetime.datetime) : Prop :=
  (1000 ≤ Z.of_nat (Datetime.year d))%Z.

Definition digit_ascii (n : nat) : ascii := ascii_of_nat (48 + n).

Definition two_digits (n : nat) : list ascii :=
  [digit_ascii (n / 10); digit_ascii (n mod 10)].

Definition four_digits (n : nat) : list ascii :=
  [digit_ascii (n / 1000); digit_ascii (n / 100 mod 10);
   digit_ascii (n / 10 mod 10); digit_ascii (n mod 10)].

(** [d.strftime("%m/%d/%Y")] for a year of four digits: month and day
    are padded with a zero to two digits. *)
Definition strftime (d : Datetime.datetime) : string :=
  String.string_of_list_ascii
    (two_digits (Datetime.month d) ++ "/"%char
     :: two_digits (Datetime.day d) ++ "/"%char
     :: four_digits (Datetime.year d)).

(** * Properties *)

(** ** Lists *)

Section list_remove.
Context {A : Type} `{EqDecision A}.
Implicit Types (x : A) (xs : list A).

Lemma list_remove_None x xs : Py.list_remove x xs = None ↔ x ∉ xs.
Proof.
  induction xs as [|y ys IH]; simpl.
  - split; [intros _; apply not_elem_of_nil | done].
  - destruct (decide (x = y)) as [->|Hne].
    + split; [done | intros []; left].
    + rewrite fmap_None, IH, not_elem_of_cons. tauto.
Qed.

Lemma list_remove_Some_length x xs ys :
  Py.list_remove x xs = Some ys → length xs = S (length ys).
Proof.
  revert ys. induction xs as [|y rest IH]; intros ys; simpl; [done|].
  destruct (decide (x = y)); [by intros [= ->]|].
  destruct (Py.list_remove x rest) as [zs|] eqn:E; simpl; [|done].
  intros [= <-]. simpl. f_equal. by apply IH.
Qed.

Lemma list_remove_elem x xs : x ∈ xs → is_Some (Py.list_remove x xs).
Proof.
  intros Hin. destruct (Py.list_remove x xs) eqn:E; [eauto|].
  by apply list_remove_None in E.
Qed.

(** Appending an absent element and removing it again gives the list
    back. *)
Lemma list_remove_snoc x xs :
  x ∉ xs → Py.list_remove x (xs ++ [x]) = Some xs.
Proof.
  induction xs as [|y ys IH]; simpl; intros Hnot.
  - by rewrite decide_True.
  - apply not_elem_of_cons in Hnot as [Hne Hnot].
    rewrite decide_False by done. by rewrite IH.
Qed.

End list_remove.

(** ** Developer *)

(** Unfolds the monadic plumbing of a method body. *)
Ltac run :=
  unfold Project.add_developer, Project.remove_developer,
    Developer.assign, Developer.cancel_appointment,
    Developer.get_assigned_projects, try_except_ValueError,
    bind, ret, raise, lift, print, get_developer, get_project,
    get_assignment, get_project_manager, set_projects, set_developers,
    set_status in *;
  simpl in *.

Lemma assign_fresh s D P :
  P ∉ projects (developer s D) →
  ∃ s1, Developer.assign D P s = (Return tt, s1)
        ∧ projects (developer s1 D) = projects (developer s D) ++ [P]
        ∧ project s1 = project s
        ∧ (∀ D', D' ≠ D → developer s1 D' = developer s D').
Proof.
  intros Hnot. run. rewrite decide_False by done. simpl.
  eexists; split; [reflexivity|]. simpl. rewrite fn_lookup_insert.
  split; [done|]. split; [done|].
  intros D' Hne. by rewrite fn_lookup_insert_ne.
Qed.

Lemma assign_duplicate s D P :
  P ∈ projects (developer s D) →
  Developer.assign D P s
  = (Raise (ValueError ("Project " +:+ title (project s P)
                        +:+ " already exists")), s).
Proof. intros Hin. run. by rewrite decide_True. Qed.

Lemma assign_Return_inv s D P s1 :
  Developer.assign D P s = (Return tt, s1) → P ∉ projects (developer s D).
Proof.
  intros Hrun Hin. rewrite (assign_duplicate _ _ _ Hin) in Hrun. done.
Qed.

Lemma get_assigned_projects_eq s D :
  Developer.get_assigned_projects D s
  = (Return ((λ p, title (project s p)) <$> projects (developer s D)), s).
Proof. reflexivity. Qed.

(** C1: after a successful [D.assign(P)] the title of [P] is among
    [D.get_assigned_projects()]; a second [D.assign(P)] raises the
    duplicate-assignment [ValueError] and leaves the state, in
    particular the length of [D.projects], as it was. *)
Theorem assign_lists_title_and_rejects_duplicate
    (s s1 : Store) (D : dev_ref) (P : proj_ref)
    (Hassign : Developer.assign D P s = (Return tt, s1)) :
  projects (developer s1 D) = projects (developer s D) ++ [P]
  ∧ (∃ titles, Developer.get_assigned_projects D s1 = (Return titles, s1)
               ∧ title (project s1 P) ∈ titles)
  ∧ (∃ s2, Developer.assign D P s1
           = (Raise (ValueError ("Project " +:+ title (project s1 P)
                                 +:+ " already exists")), s2)
           ∧ s2 = s1
           ∧ length (projects (developer s2 D))
             = length (projects (developer s1 D))).
Proof.
  pose proof (assign_Return_inv _ _ _ _ Hassign) as Hnot.
  destruct (assign_fresh s D P Hnot) as (s1' & Hrun & Hps & _).
  rewrite Hassign in Hrun. injection Hrun as <-.
  assert (P ∈ projects (developer s1 D)) as Hin.
  { rewrite Hps. apply elem_of_app. right. by apply list_elem_of_singleton. }
  split; [done|]. split.
  - eexists. rewrite get_assigned_projects_eq. split; [reflexivity|].
    by apply (list_elem_of_fmap_2 (λ p, title (project s1 p))).
  - exists s1. by rewrite (assign_duplicate _ _ _ Hin).
Qed.

Lemma cancel_absent s D P :
  P ∉ projects (developer s D) →
  Developer.cancel_appointment D P s = (Return tt, s).
Proof. intros Hnot. run. by rewrite decide_False. Qed.

Lemma cancel_present s D P :
  P ∈ projects (developer s D) →
  ∃ ps s1,
    Py.list_remove P (projects (developer s D)) = Some ps
    ∧ Developer.cancel_appointment D P s = (Return tt, s1)
    ∧ projects (developer s1 D) = ps
    ∧ project s1 = project s
    ∧ stdout s1
      = stdout s ++ ["Project " +:+ title (project s P)
                     +:+ " has been removed from developer "
                     +:+ dev_full_name (developer s D)].
Proof.
  intros Hin. destruct (list_remove_elem _ _ Hin) as [ps Hps].
  exists ps. run. rewrite decide_True by done. rewrite Hps. simpl.
  eexists. split; [done|]. split; [reflexivity|]. simpl.
  by rewrite fn_lookup_insert.
Qed.

(** C5, as the code has it: a successful [D.assign(P)] followed by
    [D.cancel_appointment(P)] puts [D.projects] back to what it was,
    without [P]; the title of [P] is then absent from
    [D.get_assigned_projects()] provided no other project of [D] carries
    the same title. *)
Theorem cancel_after_assign_restores_projects
    (s s1 : Store) (D : dev_ref) (P : proj_ref)
    (Hassign : Developer.assign D P s = (Return tt, s1)) :
  ∃ s2, Developer.cancel_appointment D P s1 = (Return tt, s2)
        ∧ projects (developer s2 D) = projects (developer s D)
        ∧ (P ∉ projects (developer s2 D))
        ∧ ((∀ Q, Q ∈ projects (developer s D) →
                 title (project s Q) ≠ title (project s P)) →
           (∃ titles,
              Developer.get_assigned_projects D s2 = (Return titles, s2)
              ∧ title (project s2 P) ∉ titles)).
Proof.
  pose proof (assign_Return_inv _ _ _ _ Hassign) as Hnot.
  destruct (assign_fresh s D P Hnot) as (s1' & Hrun & Hps & Hproj & _).
  rewrite Hassign in Hrun. injection Hrun as <-.
  assert (P ∈ projects (developer s1 D)) as Hin.
  { rewrite Hps. apply elem_of_app. right. by apply list_elem_of_singleton. }
  destruct (cancel_present s1 D P Hin) as (ps & s2 & Hrm & Hc & Hps2 & Hproj2 & _).
  rewrite Hps, (list_remove_snoc _ _ Hnot) in Hrm. injection Hrm as <-.
  exists s2. split; [done|]. split; [done|]. split; [by rewrite Hps2|].
  intros Hunique. eexists. rewrite get_assigned_projects_eq.
  split; [reflexivity|]. rewrite Hps2, Hproj2, Hproj.
  intros (Q & Heq & HQ)%list_elem_of_fmap. by apply (Hunique Q).
Qed.

(** Witness for C5's theorem: Alice and a new project. *)
Lemma cancel_after_assign_restores_projects_witness :
  let s := exec (alice_and_website "09/30/2022") blank_store in
  ∃ s2, Developer.cancel_appointment 0 1 (exec (Developer.assign 0 1) s)
        = (Return tt, s2)
        ∧ projects (developer s2 0) = projects (developer s 0)
        ∧ (1 ∉ projects (developer s2 0))
        ∧ ((∀ Q, Q ∈ projects (developer s 0) →
                 title (project s Q) ≠ title (project s 1)) →
           (∃ titles,
              Developer.get_assigned_projects 0 s2 = (Return titles, s2)
              ∧ title (project s2 1) ∉ titles)).
Proof.
  intros s.
  apply (cancel_after_assign_restores_projects s
           (exec (Developer.assign 0 1) s) 0 1).
  reflexivity.
Defined.

(** C5 as stated fails: with two projects titled "Website", of which the
    developer holds the first, assigning and cancelling the second leaves
    its title among the titles of the developer's projects. *)
Lemma cancel_after_assign_title_still_listed :
  ¬ (∀ (s s1 s2 : Store) (D : dev_ref) (P : proj_ref) (titles : list string),
       Developer.assign D P s = (Return tt, s1) →
       Developer.cancel_appointment D P s1 = (Return tt, s2) →
       Developer.get_assigned_projects D s2 = (Return titles, s2) →
       title (project s2 P) ∉ titles).
Proof.
  intros Hclaim.
  pose (s := exec two_websites blank_store).
  pose (s1 := exec (Developer.assign 2 1) s).
  pose (s2 := exec (Developer.cancel_appointment 2 1) s1).
  assert (Developer.assign 2 1 s = (Return tt, s1)) as Hassign
    by (vm_compute; reflexivity).
  assert (Developer.cancel_appointment 2 1 s1 = (Return tt, s2)) as Hcancel
    by (vm_compute; reflexivity).
  assert (Developer.get_assigned_projects 2 s2 = (Return ["Website"], s2))
    as Htitles by (vm_compute; reflexivity).
  assert (title (project s2 1) = "Website") as Htitle
    by (vm_compute; reflexivity).
  apply (Hclaim s s1 s2 2 1 ["Website"] Hassign Hcancel Htitles).
  rewrite Htitle. by apply list_elem_of_singleton.
Qed.

(** The witness for C1: Alice is assigned to a new project. *)
Lemma assign_lists_title_and_rejects_duplicate_witness :
  let s := exec (alice_and_website "09/30/2022") blank_store in
  let s1 := exec (Developer.assign 0 1) s in
  projects (developer s1 0) = projects (developer s 0) ++ [1]
  ∧ (∃ titles, Developer.get_assigned_projects 0 s1 = (Return titles, s1)
               ∧ title (project s1 1) ∈ titles)
  ∧ (∃ s2, Developer.assign 0 1 s1
           = (Raise (ValueError ("Project " +:+ title (project s1 1)
                                 +:+ " already exists")), s2)
           ∧ s2 = s1
           ∧ length (projects (developer s2 0))
             = length (projects (developer s1 0))).
Proof.
  intros s s1.
  apply (assign_lists_title_and_rejects_duplicate s s1 0 1).
  reflexivity.
Defined.

(** ** Project *)

Lemma add_developer_run s P D :
  ∃ s1, Project.add_developer P D s = (Return tt, s1)
        ∧ developers (project s1 P) = developers (project s P) ++ [D]
        ∧ projects (developer s1 D)
          = (if decide (P ∈ projects (developer s D))
             then projects (developer s D)
             else projects (developer s D) ++ [P])
        ∧ stdout s1
          = stdout s ++
            [if decide (P ∈ projects (developer s D))
             then "Developer " +:+ dev_full_name (developer s D) +:+ " exists"
             else "Project " +:+ title (project s P)
                  +:+ " has been added to developer "
                  +:+ dev_full_name (developer s D)].
Proof.
  run. destruct (decide (P ∈ projects (developer s D))) as [Hin|Hnot]; simpl.
  - eexists. split; [reflexivity|]. simpl. by rewrite fn_lookup_insert.
  - eexists. split; [reflexivity|]. simpl. by rewrite !fn_lookup_insert.
Qed.

(** C2: [add_developer] appends the developer to the roster whether the
    inner [assign] returned or raised; called twice, it leaves the
    developer twice more in the roster while the developer's own list
    gains the project at most once.  For a new developer and a new
    project the lengths are 2 and 1. *)
Theorem add_developer_appends_regardless_of_assign
    (s : Store) (P : proj_ref) (D : dev_ref) (today : string) :
  (∃ s1, Project.add_developer P D s = (Return tt, s1)
         ∧ developers (project s1 P) = developers (project s P) ++ [D]
         ∧ stdout s1
           = stdout s ++
             [if decide (P ∈ projects (developer s D))
              then "Developer " +:+ dev_full_name (developer s D)
                   +:+ " exists"
              else "Project " +:+ title (project s P)
                   +:+ " has been added to developer "
                   +:+ dev_full_name (developer s D)])
  ∧ (∃ s2, (Project.add_developer P D;; Project.add_developer P D) s
           = (Return tt, s2)
           ∧ developers (project s2 P) = developers (project s P) ++ [D; D]
           ∧ projects (developer s2 D)
             = (if decide (P ∈ projects (developer s D))
                then projects (developer s D)
                else projects (developer s D) ++ [P]))
  ∧ (∃ alice website s0 s2,
       alice_and_website today s = (Return (alice, website), s0)
       ∧ (Project.add_developer website alice;;
          Project.add_developer website alice) s0 = (Return tt, s2)
       ∧ length (developers (project s2 website)) = 2
       ∧ length (projects (developer s2 alice)) = 1).
Proof.
  assert (∀ s P D, ∃ s2,
    (Project.add_developer P D;; Project.add_developer P D) s
    = (Return tt, s2)
    ∧ developers (project s2 P) = developers (project s P) ++ [D; D]
    ∧ projects (developer s2 D)
      = (if decide (P ∈ projects (developer s D))
         then projects (developer s D)
         else projects (developer s D) ++ [P])) as Htwice.
  { clear. intros s P D.
    destruct (add_developer_run s P D) as (s1 & Hrun1 & Hds1 & Hps1 & _).
    destruct (add_developer_run s1 P D) as (s2 & Hrun2 & Hds2 & Hps2 & _).
    exists s2. unfold bind at 1. rewrite Hrun1, Hrun2.
    split; [done|]. split.
    - by rewrite Hds2, Hds1, <-app_assoc.
    - assert (P ∈ projects (developer s1 D)) as Hin.
      { rewrite Hps1. destruct (decide (P ∈ projects (developer s D)));
          [done|]. apply elem_of_app. right.
        by apply list_elem_of_singleton. }
      by rewrite Hps2, decide_True, Hps1. }
  split; [|split; [apply Htwice|]].
  - destruct (add_developer_run s P D) as (s1 & ? & ? & ? & ?). eauto.
  - destruct (Htwice (exec (alice_and_website today) s)
                (S (next_ref s)) (next_ref s)) as (s2 & Hrun & Hds & Hps).
    exists (next_ref s), (S (next_ref s)), (exec (alice_and_website today) s), s2.
    split; [reflexivity|]. split; [done|].
    rewrite Hds, Hps. unfold exec, alice_and_website, Developer.init,
      Project.init, fresh, next_Developer_id, bind, ret. simpl.
    rewrite !fn_lookup_insert. done.
Qed.

(** C6: [cancel_appointment] on a project the developer does not hold
    returns without printing and without changing the store, whereas
    [remove_developer] on a developer the roster does not hold raises
    [ValueError]. *)
Theorem absent_cancel_is_silent_absent_remove_raises
    (s : Store) (D : dev_ref) (P : proj_ref)
    (s' : Store) (D' : dev_ref) (P' : proj_ref)
    (Hproject_absent : P ∉ projects (developer s D))
    (Hdeveloper_absent : D' ∉ developers (project s' P')) :
  Developer.cancel_appointment D P s = (Return tt, s)
  ∧ ∃ s'', Project.remove_developer P' D' s'
           = (Raise (ValueError "list.remove(x): x not in list"), s'').
Proof.
  split; [by apply cancel_absent|].
  unfold Project.remove_developer, bind at 1.
  destruct (decide (P' ∈ projects (developer s' D'))) as [Hin|Hnot].
  - destruct (cancel_present s' D' P' Hin) as (ps & s1 & _ & -> & _ & Hproj & _).
    unfold bind, get_project, raise. rewrite Hproj.
    apply list_remove_None in Hdeveloper_absent as ->. eauto.
  - rewrite (cancel_absent _ _ _ Hnot).
    unfold bind, get_project, raise.
    apply list_remove_None in Hdeveloper_absent as ->. eauto.
Qed.

Lemma absent_cancel_is_silent_absent_remove_raises_witness :
  let s := exec (alice_and_website "09/30/2022") blank_store in
  Developer.cancel_appointment 0 1 s = (Return tt, s)
  ∧ ∃ s'', Project.remove_developer 1 0 s
           = (Raise (ValueError "list.remove(x): x not in list"), s'').
Proof.
  intros s.
  apply (absent_cancel_is_silent_absent_remove_raises s 0 1 s 0 1);
    apply not_elem_of_nil.
Defined.

(** C9: when the roster does not hold the developer but the developer
    holds the project, [remove_developer] first takes the project out of
    the developer's list and prints the notification, and only then
    raises: the store it leaves differs from the one it started in. *)
Theorem remove_developer_fails_after_cancelling
    (s : Store) (P : proj_ref) (D : dev_ref)
    (Hdeveloper_absent : D ∉ developers (project s P))
    (Hproject_present : P ∈ projects (developer s D)) :
  ∃ s1,
    Project.remove_developer P D s
    = (Raise (ValueError "list.remove(x): x not in list"), s1)
    ∧ Py.list_remove P (projects (developer s D))
      = Some (projects (developer s1 D))
    ∧ length (projects (developer s D))
      = S (length (projects (developer s1 D)))
    ∧ stdout s1
      = stdout s ++ ["Project " +:+ title (project s P)
                     +:+ " has been removed from developer "
                     +:+ dev_full_name (developer s D)]
    ∧ developers (project s1 P) = developers (project s P)
    ∧ s1 ≠ s.
Proof.
  destruct (cancel_present s D P Hproject_present)
    as (ps & s1 & Hrm & Hc & Hps & Hproj & Hout).
  exists s1. unfold Project.remove_developer, bind at 1. rewrite Hc.
  unfold bind, get_project, raise. rewrite Hproj.
  apply list_remove_None in Hdeveloper_absent as ->.
  split; [done|]. split; [by rewrite Hps|].
  split; [rewrite Hps; by apply (list_remove_Some_length P)|].
  split; [done|]. split; [done|].
  intros ->. apply (f_equal length) in Hout.
  rewrite length_app in Hout. simpl in Hout. lia.
Qed.

(** A developer who holds a project whose roster is empty. *)
Lemma remove_developer_fails_after_cancelling_witness :
  let s := exec (alice_and_website "09/30/2022";; Developer.assign 0 1)
             blank_store in
  ∃ s1,
    Project.remove_developer 1 0 s
    = (Raise (ValueError "list.remove(x): x not in list"), s1)
    ∧ Py.list_remove 1 (projects (developer s 0))
      = Some (projects (developer s1 0))
    ∧ length (projects (developer s 0))
      = S (length (projects (developer s1 0)))
    ∧ stdout s1
      = stdout s ++ ["Project " +:+ title (project s 1)
                     +:+ " has been removed from developer "
                     +:+ dev_full_name (developer s 0)]
    ∧ developers (project s1 1) = developers (project s 1)
    ∧ s1 ≠ s.
Proof.
  intros s. apply (remove_developer_fails_after_cancelling s 1 0).
  - apply not_elem_of_nil.
  - by apply list_elem_of_singleton.
Defined.

(** ** Strings *)

Lemma string_app_assoc (s1 s2 s3 : string) :
  (s1 +:+ s2) +:+ s3 = s1 +:+ s2 +:+ s3.
Proof.
  induction s1 as [|c s1 IH]; [done|].
  change (String c ((s1 +:+ s2) +:+ s3) = String c (s1 +:+ s2 +:+ s3)).
  by rewrite IH.
Qed.

Lemma string_app_nil_r (s : string) : s +:+ "" = s.
Proof.
  induction s as [|c s IH]; [done|].
  change (String c (s +:+ "") = String c s). by rewrite IH.
Qed.

Lemma string_app_nil_inv (s1 s2 : string) :
  s1 +:+ s2 = "" → s1 = "" ∧ s2 = "".
Proof. destruct s1; [done|]. intros [=]. Qed.

(** ** Floats *)

Section float_facts.
Local Open Scope Z_scope.

Lemma round_half_even_scale c n d :
  0 < c → d ≠ 0 →
  Float.round_half_even (c * n) (c * d) = Float.round_half_even n d.
Proof.
  intros Hc Hd. unfold Float.round_half_even.
  rewrite Z.div_mul_cancel_l, Z.mul_mod_distr_l by lia.
  replace (2 * (c * (n mod d))) with (c * (2 * (n mod d))) by lia.
  by rewrite <-Zmult_compare_compat_l by lia.
Qed.

Lemma binade_scale c a b :
  0 < c → 0 < a → 0 < b → Float.binade (c * a) (c * b) = Float.binade a b.
Proof.
  intros Hc Ha Hb. unfold Float.binade.
  replace (c * b <=? c * a) with (b <=? a).
  2:{ destruct (Z.leb_spec b a), (Z.leb_spec (c * b) (c * a)); try done; nia. }
  rewrite Z.div_mul_cancel_l by lia.
  replace (- (c * b)) with (c * - b) by lia.
  by rewrite Z.div_mul_cancel_l by lia.
Qed.

(** The nearest float depends on the ratio only. *)
Lemma nearest_scale c a b :
  0 < c → 0 < a → 0 < b → Float.nearest (c * a) (c * b) = Float.nearest a b.
Proof.
  intros Hc Ha Hb. unfold Float.nearest.
  rewrite binade_scale by done.
  set (e := Z.max (Float.binade a b - 52) (-1074)).
  replace (c * a * 2 ^ (- e)) with (c * (a * 2 ^ (- e))) by lia.
  replace (c * b * 2 ^ e) with (c * (b * 2 ^ e)) by lia.
  destruct (e <? 0) eqn:He.
  - by rewrite round_half_even_scale by lia.
  - apply Z.ltb_ge in He.
    assert (0 < 2 ^ e) by (apply Z.pow_pos_nonneg; lia).
    by rewrite round_half_even_scale by nia.
Qed.

Lemma true_div_scale c a b :
  0 < c → 0 < a → 0 < b →
  Float.true_div (c * a) (c * b) = Float.true_div a b.
Proof.
  intros Hc Ha Hb. unfold Float.true_div.
  assert (0 < c * a) by nia. assert (0 < c * b) by nia.
  rewrite !Z.abs_eq by lia. rewrite nearest_scale by done.
  replace (c * b =? 0) with false by (symmetry; apply Z.eqb_neq; lia).
  replace (b =? 0) with false by (symmetry; apply Z.eqb_neq; lia).
  replace (c * a =? 0) with false by (symmetry; apply Z.eqb_neq; lia).
  replace (a =? 0) with false by (symmetry; apply Z.eqb_neq; lia).
  replace (c * a <? 0) with false by (symmetry; apply Z.ltb_ge; lia).
  replace (c * b <? 0) with false by (symmetry; apply Z.ltb_ge; lia).
  replace (a <? 0) with false by (symmetry; apply Z.ltb_ge; lia).
  replace (b <? 0) with false by (symmetry; apply Z.ltb_ge; lia).
  done.
Qed.

(** Two fractions with the same value have the same quotient. *)
Lemma true_div_ratio a b a' b' :
  0 < a → 0 < b → 0 < a' → 0 < b' → a * b' = a' * b →
  Float.true_div a b = Float.true_div a' b'.
Proof.
  intros Ha Hb Ha' Hb' Heq.
  rewrite <-(true_div_scale b' a b), <-(true_div_scale b a' b') by done.
  f_equal; lia.
Qed.

Lemma binade_le_6 a b : 0 < a → 0 < b → a ≤ 100 * b → Float.binade a b ≤ 6.
Proof.
  intros Ha Hb Hle. unfold Float.binade. destruct (b <=? a).
  - change 6 with (Z.log2 100). apply Z.log2_le_mono.
    apply Z.div_le_upper_bound; lia.
  - pose proof (Z.log2_up_nonneg (- (- b / a))). lia.
Qed.

(** A quotient of at most 100 is within range: the division returns. *)
Lemma true_div_returns a b :
  0 < a → 0 < b → a ≤ 100 * b → ∃ q, Float.true_div a b = Return q.
Proof.
  intros Ha Hb Hle. unfold Float.true_div.
  replace (b =? 0) with false by (symmetry; apply Z.eqb_neq; lia).
  replace (a =? 0) with false by (symmetry; apply Z.eqb_neq; lia).
  rewrite !Z.abs_eq by lia.
  pose proof (binade_le_6 a b Ha Hb Hle) as Hbin.
  unfold Float.nearest.
  set (e := Z.max (Float.binade a b - 52) (-1074)).
  assert (e ≤ -46) by lia.
  destruct (_ =? 2 ^ 53).
  - replace (971 <? e + 1) with false by (symmetry; apply Z.ltb_ge; lia).
    eauto.
  - replace (971 <? e) with false by (symmetry; apply Z.ltb_ge; lia).
    eauto.
Qed.

(** [true_div] agrees with the Standard Library's IEEE 754 division on
    every percentage of up to 40 tasks. *)
Lemma true_div_agrees_with_SFdiv :
  forallb (λ total,
    forallb (λ finished,
      match Float.true_div (100 * Z.pos finished) (Z.pos total) with
      | Return q =>
          bool_decide (SpecFloat.SFcompare (Float.to_spec q)
                         (Float.ieee_div (100 * finished) total)
                       = Some Eq)
      | Raise _ => false
      end) (Pos.of_nat <$> seq 1 (Pos.to_nat total)))
    (Pos.of_nat <$> seq 1 40) = true.
Proof. by vm_compute. Qed.

(** The percentage is rounded once: [100 * 1 / 3] is not what dividing
    first and multiplying afterwards gives. *)
Remark percentage_is_rounded_once :
  Float.str <$> (match Float.true_div 100 3 with
                 | Return q => Some q | Raise _ => None end)
  = Some "33.333333333333336"
  ∧ Float.str <$> (match Float.true_div 1 3 with
                   | Return q => Some (Float.mul_int q 100)
                   | Raise _ => None end)
    = Some "33.33333333333333"
  ∧ (match Float.true_div 1 3 with
     | Return q =>
         bool_decide (SpecFloat.SFcompare
                        (Float.to_spec (Float.mul_int q 100))
                        (Float.ieee_mul (Float.ieee_div 1 3) 100)
                      = Some Eq)
     | Raise _ => false
     end) = true.
Proof. by vm_compute. Qed.

(** [str] on some quotients, as CPython prints them. *)
Example str_of_quotients :
  (λ '(a, b), match Float.true_div a b with
              | Return q => Float.str q
              | Raise (ZeroDivisionError _) => "ZeroDivisionError"
              | Raise _ => "OverflowError"
              end)
    <$> [(100, 2); (200, 3); (100, 7); (100, 1); (1, 100000); (1, 10000);
         (10 ^ 16, 1); (10 ^ 23, 1); (-7, 2); (0, 5); (0, -5); (1, 0);
         (1, 10 ^ 320); (10 ^ 400, 1); (2 ^ 53 + 1, 1)]
  = ["50.0"; "66.66666666666667"; "14.285714285714286"; "100.0"; "1e-05";
     "0.0001"; "1e+16"; "1e+23"; "-3.5"; "0.0"; "-0.0"; "ZeroDivisionError";
     "1e-320"; "OverflowError"; "9007199254740992.0"].
Proof. by vm_compute. Qed.

End float_facts.

(** ** Assignment *)

Lemma done_tasks_flagged (items : list (string * Task)) :
  Forall (λ kt, has_flag kt.2) items →
  Assignment.done_tasks items
  = Return ((filter (λ kt, completed kt.2) items).*2).
Proof.
  induction 1 as [|[k task] rest [flag Hflag] _ IH]; [done|].
  simpl in *. rewrite Hflag, IH. rewrite filter_cons. simpl.
  assert (completed task = truthy flag) as Hc
    by (unfold completed; by rewrite Hflag).
  destruct (decide (completed task)) as [Hyes|Hno];
    rewrite Hc in *; by destruct (truthy flag).
Qed.

Lemma calculate_status_none_done s a :
  Assignment.done_tasks (received_tasks (assignment s a)) = Return [] →
  Assignment.calculate_status a s = (Return tt, exec (set_status a "0%") s).
Proof.
  intros Hdone. unfold Assignment.calculate_status, bind, get_assignment, lift.
  by rewrite Hdone.
Qed.

Lemma calculate_status_some_done s a task tasks q :
  Assignment.done_tasks (received_tasks (assignment s a))
  = Return (task :: tasks) →
  Float.true_div (100 * Assignment.len (task :: tasks))
    (Assignment.len (received_tasks (assignment s a))) = Return q →
  Assignment.calculate_status a s
  = (Return tt, exec (set_status a (Float.str q +:+ "%")) s).
Proof.
  intros Hdone Hdiv.
  unfold Assignment.calculate_status, bind, get_assignment, lift.
  by rewrite Hdone, Hdiv.
Qed.

Lemma status_set_status s a st :
  status (assignment (exec (set_status a st) s) a) = st.
Proof. unfold exec, set_status. simpl. by rewrite fn_lookup_insert. Qed.



(** Whatever [calculate_status] does, it leaves the store as it was or as
    [set_status] makes it. *)
Lemma calculate_status_cases s a r s' :
  Assignment.calculate_status a s = (r, s') →
  s' = s ∨ ∃ st, r = Return tt ∧ s' = exec (set_status a st) s.
Proof.
  unfold Assignment.calculate_status, bind, get_assignment, lift.
  destruct (Assignment.done_tasks _) as [[|task tasks]|e].
  - intros [= <- <-]. right. by eexists.
  - destruct (Float.true_div _ _) as [q|e].
    + intros [= <- <-]. right. by eexists.
    + intros [= <- <-]. by left.
  - intros [= <- <-]. by left.
Qed.

Lemma all_completed_filter (items : list (string * Task)) :
  Forall (λ kt, completed kt.2 = true) items →
  filter (λ kt, completed kt.2) items = items.
Proof.
  induction 1 as [|kt rest Hkt _ IH]; [done|].
  rewrite filter_cons, IH. rewrite decide_True; [done|].
  by rewrite Hkt.
Qed.

Lemma completed_has_flag (task : Task) :
  completed task = true → has_flag task.
Proof.
  unfold completed, has_flag. destruct (task !! "is_done"); [eauto|done].
Qed.

(** C10: [calculate_status] touches nothing but the [status] of its own
    assignment, whether it returns or raises; with every task completed
    it stores "100.0%" and [is_done] keeps its value, which is [False]
    from construction. *)
Theorem calculate_status_changes_status_only
    (s s' : Store) (a : asg_ref) (r : outcome unit)
    (Hrun : Assignment.calculate_status a s = (r, s'))
    (s0 : Store) (a0 : asg_ref)
    (Hsome : received_tasks (assignment s0 a0) ≠ [])
    (Hall : Forall (λ kt, completed kt.2 = true)
              (received_tasks (assignment s0 a0)))
    (Hopen : is_done (assignment s0 a0) = false) :
  (received_tasks (assignment s' a) = received_tasks (assignment s a)
   ∧ is_done (assignment s' a) = is_done (assignment s a)
   ∧ description (assignment s' a) = description (assignment s a)
   ∧ (∀ b, b ≠ a → assignment s' b = assignment s b)
   ∧ developer s' = developer s ∧ project s' = project s
   ∧ qa_engineer s' = qa_engineer s
   ∧ project_manager s' = project_manager s
   ∧ stdout s' = stdout s)
  ∧ (∃ s1, Assignment.calculate_status a0 s0 = (Return tt, s1)
           ∧ status (assignment s1 a0) = "100.0%"
           ∧ is_done (assignment s1 a0) = false)
  ∧ (∀ description, is_done (Assignment.initial description) = false).
Proof.
  split; [|split; [|done]].
  - destruct (calculate_status_cases _ _ _ _ Hrun) as [->|(st & _ & ->)];
      [done|].
    unfold exec, set_status. simpl. rewrite fn_lookup_insert. simpl.
    repeat split; try done.
    intros b Hne. by rewrite fn_lookup_insert_ne.
  - assert (Forall (λ kt : string * Task, has_flag kt.2)
              (received_tasks (assignment s0 a0))) as Hflags.
    { eapply Forall_impl; [exact Hall|]. intros kt. apply completed_has_flag. }
    pose proof (done_tasks_flagged _ Hflags) as Hdone.
    rewrite (all_completed_filter _ Hall) in Hdone.
    destruct (received_tasks (assignment s0 a0)) as [|kt rest] eqn:E; [done|].
    assert (Float.true_div (100 * Assignment.len ((kt :: rest).*2))
              (Assignment.len (kt :: rest))
            = Float.true_div 100 1) as Hdiv.
    { unfold Assignment.len. rewrite length_fmap.
      apply true_div_ratio; simpl length; lia. }
    exists (exec (set_status a0 "100.0%") s0). split.
    + rewrite <-E in Hdone at 1. rewrite <-E in Hdiv at 2.
      destruct (Float.true_div 100 1) as [q|] eqn:Hq; [|by vm_compute in Hq].
      rewrite (calculate_status_some_done s0 a0 kt.2 (rest.*2) q Hdone Hdiv).
      vm_compute in Hq. by injection Hq as <-.
    + split; [apply status_set_status|].
      unfold exec, set_status. simpl. rewrite fn_lookup_insert. simpl.
      exact Hopen.
Qed.

(** The witness: two tasks, both finished. *)
Lemma calculate_status_changes_status_only_witness :
  let s := exec all_finished blank_store in
  ∃ s1, Assignment.calculate_status 0 s = (Return tt, s1)
        ∧ status (assignment s1 0) = "100.0%"
        ∧ is_done (assignment s1 0) = false
        ∧ received_tasks (assignment s1 0) = received_tasks (assignment s 0).
Proof.
  intros s.
  destruct (calculate_status_changes_status_only s
              (exec (Assignment.calculate_status 0) s) 0
              (eval (Assignment.calculate_status 0) s) eq_refl s 0)
    as ((Htasks & _) & (s1 & Hrun & Hstatus & Hdone) & _).
  - done.
  - repeat constructor.
  - reflexivity.
  - exists s1. repeat split; try done.
    replace s1 with (exec (Assignment.calculate_status 0) s); [done|].
    unfold exec. by rewrite Hrun.
Defined.

Lemma format_repr_nonempty ds decpt : Float.format_repr ds decpt ≠ "".
Proof.
  unfold Float.format_repr. intros Hempty.
  repeat match type of Hempty with
         | (if ?c then _ else _) = _ => destruct c
         end;
    repeat match type of Hempty with
           | _ +:+ _ = "" =>
               apply string_app_nil_inv in Hempty as [? Hempty]
           end;
    done.
Qed.

Lemma str_nonempty q : Float.str q ≠ "".
Proof.
  unfold Float.str. intros [_ Hempty]%string_app_nil_inv.
  destruct (Float.mant q =? 0)%Z; [done|].
  destruct (Float.shortest _ _) as [ds decpt].
  by apply format_repr_nonempty in Hempty.
Qed.

Lemma calculate_status_Return_status s a s' :
  Assignment.calculate_status a s = (Return tt, s') →
  ∃ st, s' = exec (set_status a st) s
        ∧ is_percentage st
        ∧ ∀ s0 a0 s0',
            received_tasks (assignment s0 a0)
            = received_tasks (assignment s a) →
            Assignment.calculate_status a0 s0 = (Return tt, s0') →
            s0' = exec (set_status a0 st) s0.
Proof.
  unfold Assignment.calculate_status, bind, get_assignment, lift.
  destruct (Assignment.done_tasks (received_tasks (assignment s a)))
    as [[|task tasks]|e] eqn:Hdone; [| |done].
  - intros [= <-]. exists "0%". split; [done|]. split.
    + exists "0". by split.
    + intros s0 a0 s0' ->. rewrite Hdone. by intros [= <-].
  - destruct (Float.true_div _ _) as [q|e] eqn:Hdiv; [|done].
    intros [= <-]. exists (Float.str q +:+ "%"). split; [done|]. split.
    + exists (Float.str q). split; [apply str_nonempty|done].
    + intros s0 a0 s0' ->. rewrite Hdone, Hdiv. by intros [= <-].
Qed.




(** ** Dates *)

Lemma strptime_raises_ValueError (data_string : string) (e : exn) :
  Datetime.strptime data_string = Raise e → ∃ msg, e = ValueError msg.
Proof.
  unfold Datetime.strptime. intros Hraise.
  repeat case_match; simplify_eq; eauto.
Qed.

Lemma datetime_lt_spec (a b : Datetime.datetime) :
  Datetime.lt a b = true ↔
  Datetime.year a < Datetime.year b
  ∨ (Datetime.year a = Datetime.year b
     ∧ (Datetime.month a < Datetime.month b
        ∨ (Datetime.month a = Datetime.month b
           ∧ Datetime.day a < Datetime.day b))).
Proof.
  unfold Datetime.lt.
  rewrite !orb_true_iff, !andb_true_iff, !orb_true_iff, !andb_true_iff,
    !Nat.ltb_lt, !Nat.eqb_eq.
  tauto.
Qed.

Lemma datetime_lt_irrefl (d : Datetime.datetime) : Datetime.lt d d = false.
Proof.
  apply not_true_iff_false. rewrite datetime_lt_spec. lia.
Qed.

Lemma tasks_before_parsed d (items : list (string * Task)) :
  Forall (λ kt, parses kt.1) items →
  Assignment.tasks_before d items
  = Return ((filter (λ kt, earlier d kt.1) items).*2).
Proof.
  induction 1 as [|[k task] rest [dk Hk] _ IH]; [done|].
  simpl in *. rewrite Hk, IH, filter_cons. simpl.
  assert (earlier d k = Datetime.lt dk d) as He
    by (unfold earlier; by rewrite Hk).
  destruct (decide (earlier d k)) as [Hyes|Hno];
    rewrite He in *; by destruct (Datetime.lt dk d).
Qed.

(** C4: [get_tasks_to_date] raises the [ValueError] of [strptime] when
    the date does not parse, whatever the tasks are; when the date and
    all keys parse it returns, in insertion order, the tasks whose key
    is a date strictly before the given one, a key of the same date
    being left out.  With tasks dated 09/01/2022 and 10/01/2022 the
    query 09/30/2022 returns the first only. *)
Theorem get_tasks_to_date_returns_earlier_tasks
    (s : Store) (a : asg_ref) (date : string) (e : exn)
    (Hmalformed : Datetime.strptime date = Raise e)
    (s' : Store) (a' : asg_ref) (date' : string) (d : Datetime.datetime)
    (Hdate : Datetime.strptime date' = Return d)
    (Hkeys : Forall (λ kt, parses kt.1) (received_tasks (assignment s' a'))) :
  (Assignment.get_tasks_to_date a date s = (Raise e, s)
   ∧ ∃ msg, e = ValueError msg)
  ∧ Assignment.get_tasks_to_date a' date' s'
    = (Return ((filter (λ kt, earlier d kt.1)
                  (received_tasks (assignment s' a'))).*2), s')
  ∧ (∀ key, Datetime.strptime key = Return d → earlier d key = false)
  ∧ eval (Assignment.get_tasks_to_date 0 "09/30/2022")
      (exec september_and_october blank_store)
    = Return [{["is_done" := VBool true]}].
Proof.
  split; [|split; [|split]].
  - split; [|by eapply strptime_raises_ValueError].
    unfold Assignment.get_tasks_to_date, bind, get_assignment, lift.
    by rewrite Hmalformed.
  - unfold Assignment.get_tasks_to_date, bind, get_assignment, lift.
    by rewrite Hdate, (tasks_before_parsed _ _ Hkeys).
  - intros key Hkey. unfold earlier. rewrite Hkey. apply datetime_lt_irrefl.
  - by vm_compute.
Qed.

(** The witness: the malformed query "2022-09-30" and the query
    "09/30/2022" on the assignment with tasks in September and
    October. *)
Lemma get_tasks_to_date_returns_earlier_tasks_witness :
  let s := exec september_and_october blank_store in
  is_ValueError (eval (Assignment.get_tasks_to_date 0 "2022-09-30") s)
  ∧ Assignment.get_tasks_to_date 0 "09/30/2022" s
    = (Return [{["is_done" := VBool true]}], s).
Proof.
  intros s.
  destruct (get_tasks_to_date_returns_earlier_tasks
              s 0 "2022-09-30"
              (ValueError
                 "time data '2022-09-30' does not match format '%m/%d/%Y'")
              eq_refl
              s 0 "09/30/2022"
              {| Datetime.year := 2022; Datetime.month := 9;
                 Datetime.day := 30 |} eq_refl)
    as ((Hraise & _) & Hreturn & _).
  - repeat constructor; by eexists.
  - split.
    + unfold eval. rewrite Hraise. by eexists.
    + rewrite Hreturn. reflexivity.
Defined.

(** ** ProjectManager *)

(** C7: [discuss_progress] returns, without changing the store, the
    summary that names the manager and holds the descriptions of the
    developer's assignments in order, joined by single spaces; with no
    assignments the joined part is empty and the call still returns. *)
Theorem discuss_progress_joins_descriptions
    (s : Store) (manager : pm_ref) (developer' : dev_ref)
    (s0 : Store) (manager0 : pm_ref) (developer0 : dev_ref)
    (Hnone : assignments (developer s0 developer0) = []) :
  let descriptions :=
    (λ a, description (assignment s a))
      <$> assignments (developer s developer') in
  let summary :=
    "Task's progress of " +:+ Py.join " " descriptions
    +:+ " has been tested by " +:+ pm_full_name (project_manager s manager) in
  ProjectManager.discuss_progress manager developer' s = (Return summary, s)
  ∧ Py.contains summary (Py.join " " descriptions)
  ∧ Py.contains summary (pm_full_name (project_manager s manager))
  ∧ (∀ first second rest,
       Py.join " " (first :: second :: rest)
       = first +:+ " " +:+ Py.join " " (second :: rest))
  ∧ (∀ only, Py.join " " [only] = only)
  ∧ ProjectManager.discuss_progress manager0 developer0 s0
    = (Return ("Task's progress of " +:+ "" +:+ " has been tested by "
               +:+ pm_full_name (project_manager s0 manager0)), s0).
Proof.
  intros descriptions summary. split; [reflexivity|].
  split; [by exists "Task's progress of ", (" has been tested by "
           +:+ pm_full_name (project_manager s manager))|].
  split.
  { exists ("Task's progress of " +:+ Py.join " " descriptions
            +:+ " has been tested by "), "".
    unfold summary. by rewrite string_app_nil_r, !string_app_assoc. }
  split; [done|]. split; [done|].
  unfold ProjectManager.discuss_progress, bind, get_project_manager,
    get_developer, ret.
  by rewrite Hnone.
Qed.

(** The witness: a developer without assignments, and the developer
    with "Fix bug" and "Write docs". *)
Lemma discuss_progress_joins_descriptions_witness :
  let s := exec manager_and_busy_developer blank_store in
  let s0 := exec (two_websites;; ProjectManager.init "Bob" "" "" "" "" "" 0)
              blank_store in
  (∃ summary,
     ProjectManager.discuss_progress 1 2 s = (Return summary, s)
     ∧ Py.contains summary "Fix bug Write docs")
  ∧ ProjectManager.discuss_progress 3 2 s0
    = (Return "Task's progress of  has been tested by Bob", s0).
Proof.
  intros s s0.
  destruct (discuss_progress_joins_descriptions s 1 2 s0 3 2 eq_refl)
    as (Hrun & Hjoined & _ & _ & _ & Hempty).
  split.
  - eexists. split; [exact Hrun|exact Hjoined].
  - exact Hempty.
Defined.

(** ** What the well-formedness assumptions rule out *)

(** [strptime] on some strings, as CPython answers. *)
Example strptime_examples :
  (λ text, match Datetime.strptime text with
           | Return d => Some (Datetime.month d, Datetime.day d,
                               Datetime.year d)
           | Raise _ => None
           end)
    <$> ["09/30/2022"; "9/3/2022"; "10/ 5/2022"; "02/29/2020"; "12/31/1999";
         "13/01/2022"; "02/29/2021"; "04/31/2022"; "09/30/20221";
         "09/30/202"; "1/31/0000"; "09-30-2022"; "00/10/2022"; " 1/1/2022"]
  = [Some (9, 30, 2022); Some (9, 3, 2022); Some (10, 5, 2022);
     Some (2, 29, 2020); Some (12, 31, 1999);
     None; None; None; None; None; None; None; None; None].
Proof. by vm_compute. Qed.

(** A key that does not parse makes [get_tasks_to_date] raise although
    the query parses. *)
Lemma get_tasks_to_date_malformed_key :
  is_ValueError (eval (Assignment.get_tasks_to_date 0 "09/30/2022")
                   (exec iso_dated blank_store)).
Proof. by eexists. Qed.

(** A task record without the flag makes [calculate_status] raise
    [KeyError], the status staying as it was. *)
Lemma calculate_status_missing_flag :
  let s := exec unflagged blank_store in
  Assignment.calculate_status 0 s = (Raise (KeyError "is_done"), s).
Proof. reflexivity. Qed.

(** * Further properties of the methods *)

(** ** Removal from a list *)

Section without.
Context {A : Type} `{EqDecision A}.
Implicit Types (x : A) (xs : list A).

Lemma without_absent x xs : x ∉ xs → without x xs = xs.
Proof.
  intros Hnot. unfold without. by apply list_remove_None in Hnot as ->.
Qed.

Lemma without_cons_eq x xs : without x (x :: xs) = xs.
Proof. unfold without. simpl. by rewrite decide_True. Qed.

Lemma without_cons_ne x y xs :
  x ≠ y → without x (y :: xs) = y :: without x xs.
Proof.
  intros Hne. unfold without. simpl. rewrite decide_False by done.
  by destruct (Py.list_remove x xs).
Qed.

Lemma without_snoc x xs : x ∉ xs → without x (xs ++ [x]) = xs.
Proof. intros Hnot. unfold without. by rewrite list_remove_snoc. Qed.

Lemma without_present_length x xs :
  x ∈ xs → length xs = S (length (without x xs)).
Proof.
  intros [ys Hys]%list_remove_elem. unfold without. rewrite Hys. simpl.
  by apply (list_remove_Some_length x).
Qed.

(** In a list free of duplicates, removing the first occurrence removes
    the element, and keeps the others in their order. *)
Lemma without_NoDup_filter x xs :
  NoDup xs → without x xs = filter (λ y, y ≠ x) xs.
Proof.
  induction 1 as [|y ys Hy Hys IH]; [done|].
  rewrite filter_cons. destruct (decide (x = y)) as [->|Hne].
  - rewrite without_cons_eq, decide_False by (intros ?; done).
    rewrite <-IH. symmetry. by apply without_absent.
  - rewrite without_cons_ne, decide_True, IH by done. done.
Qed.

Lemma without_sublist x xs : without x xs `sublist_of` xs.
Proof.
  induction xs as [|y ys IH]; [done|].
  destruct (decide (x = y)) as [->|Hne].
  - rewrite without_cons_eq. by apply sublist_cons.
  - rewrite without_cons_ne by done. by apply sublist_skip.
Qed.

Lemma without_NoDup x xs : NoDup xs → NoDup (without x xs).
Proof. intros Hnd. eapply sublist_NoDup; [exact Hnd|apply without_sublist]. Qed.

Lemma without_NoDup_absent x xs : NoDup xs → x ∉ without x xs.
Proof.
  intros Hnd. rewrite without_NoDup_filter by done.
  rewrite list_elem_of_filter. by intros [Hne _].
Qed.

(** The removed occurrence put back in front gives a rearrangement of
    the list. *)
Lemma without_Permutation x xs : x ∈ xs → x :: without x xs ≡ₚ xs.
Proof.
  induction xs as [|y ys IH]; [by intros ?%elem_of_nil|].
  destruct (decide (x = y)) as [->|Hne].
  - by rewrite without_cons_eq.
  - intros [?|Hin]%elem_of_cons; [done|].
    rewrite without_cons_ne by done. by rewrite Permutation_swap, IH.
Qed.

End without.

(** ** What each mutating method does to the store *)

Lemma cancel_exec s D P :
  let s1 := exec (Developer.cancel_appointment D P) s in
  eval (Developer.cancel_appointment D P) s = Return tt
  ∧ projects (developer s1 D) = without P (projects (developer s D))
  ∧ dev_fixed (developer s1 D) = dev_fixed (developer s D)
  ∧ (∀ D', D' ≠ D → developer s1 D' = developer s D')
  ∧ project s1 = project s
  ∧ assignment s1 = assignment s.
Proof.
  unfold exec, eval, without.
  destruct (decide (P ∈ projects (developer s D))) as [Hin|Hnot].
  - destruct (list_remove_elem _ _ Hin) as [ps Hps]. run.
    rewrite decide_True, Hps by done. simpl. rewrite fn_lookup_insert.
    repeat split; try done. intros D' Hne. by rewrite fn_lookup_insert_ne.
  - rewrite (cancel_absent _ _ _ Hnot). simpl.
    by apply list_remove_None in Hnot as ->.
Qed.

Lemma assign_exec s D P :
  let s1 := exec (Developer.assign D P) s in
  projects (developer s1 D)
  = (if decide (P ∈ projects (developer s D))
     then projects (developer s D)
     else projects (developer s D) ++ [P])
  ∧ dev_fixed (developer s1 D) = dev_fixed (developer s D)
  ∧ (∀ D', D' ≠ D → developer s1 D' = developer s D')
  ∧ project s1 = project s
  ∧ assignment s1 = assignment s.
Proof.
  unfold exec.
  destruct (decide (P ∈ projects (developer s D))) as [Hin|Hnot].
  - by rewrite (assign_duplicate _ _ _ Hin).
  - run. rewrite decide_False by done. simpl. rewrite fn_lookup_insert.
    repeat split; try done. intros D' Hne. by rewrite fn_lookup_insert_ne.
Qed.

Lemma add_developer_exec s P D :
  let s1 := exec (Project.add_developer P D) s in
  eval (Project.add_developer P D) s = Return tt
  ∧ developers (project s1 P) = developers (project s P) ++ [D]
  ∧ proj_fixed (project s1 P) = proj_fixed (project s P)
  ∧ (∀ P', P' ≠ P → project s1 P' = project s P')
  ∧ projects (developer s1 D)
    = (if decide (P ∈ projects (developer s D))
       then projects (developer s D)
       else projects (developer s D) ++ [P])
  ∧ dev_fixed (developer s1 D) = dev_fixed (developer s D)
  ∧ (∀ D', D' ≠ D → developer s1 D' = developer s D')
  ∧ assignment s1 = assignment s.
Proof.
  unfold exec, eval. run.
  destruct (decide (P ∈ projects (developer s D))) as [Hin|Hnot]; simpl;
    rewrite ?fn_lookup_insert; repeat split; try done;
    intros X Hne; by rewrite fn_lookup_insert_ne.
Qed.

Lemma remove_developer_exec s P D :
  let s1 := exec (Project.remove_developer P D) s in
  (eval (Project.remove_developer P D) s
   = (if decide (D ∈ developers (project s P)) then Return tt
      else Raise (ValueError "list.remove(x): x not in list")))
  ∧ developers (project s1 P) = without D (developers (project s P))
  ∧ proj_fixed (project s1 P) = proj_fixed (project s P)
  ∧ (∀ P', P' ≠ P → project s1 P' = project s P')
  ∧ projects (developer s1 D) = without P (projects (developer s D))
  ∧ dev_fixed (developer s1 D) = dev_fixed (developer s D)
  ∧ (∀ D', D' ≠ D → developer s1 D' = developer s D')
  ∧ assignment s1 = assignment s.
Proof.
  destruct (cancel_exec s D P) as (Hret & Hps & Hfix & Hothers & Hproj & Hasg).
  intros s1. subst s1. unfold exec, eval in *.
  unfold Project.remove_developer, bind, get_project, raise, set_developers.
  destruct (Developer.cancel_appointment D P s) as [r s0]. simpl in *.
  subst r. unfold without at 1. rewrite Hproj.
  destruct (decide (D ∈ developers (project s P))) as [Hin|Hnot].
  - destruct (list_remove_elem _ _ Hin) as [ds ->]. simpl.
    rewrite fn_lookup_insert, Hproj. repeat split; try done.
    intros P' Hne. by rewrite fn_lookup_insert_ne.
  - apply list_remove_None in Hnot as ->. simpl. rewrite Hproj. done.
Qed.

(** ** Running computations in sequence *)

Lemma run_pair {A} (m : M A) s : m s = (eval m s, exec m s).
Proof. unfold eval, exec. by destruct (m s). Qed.

Lemma exec_bind {A B} (m : M A) (k : A → M B) s x :
  eval m s = Return x → exec (bind m k) s = exec (k x) (exec m s).
Proof.
  unfold eval, exec, bind. destruct (m s) as [r s1]. simpl. by intros ->.
Qed.

Lemma eval_bind {A B} (m : M A) (k : A → M B) s x :
  eval m s = Return x → eval (bind m k) s = eval (k x) (exec m s).
Proof.
  unfold eval, exec, bind. destruct (m s) as [r s1]. simpl. by intros ->.
Qed.

Section without_app.
Context {A : Type} `{EqDecision A}.

Lemma without_app_absent (x : A) (xs ys : list A) :
  x ∉ xs → without x (xs ++ ys) = xs ++ without x ys.
Proof.
  induction xs as [|y rest IH]; [done|].
  intros [Hne Hnot]%not_elem_of_cons. simpl.
  by rewrite without_cons_ne, IH.
Qed.

Lemma without_app_present (x : A) (xs ys : list A) :
  x ∈ xs → without x (xs ++ ys) = without x xs ++ ys.
Proof.
  induction xs as [|y rest IH]; [by intros ?%elem_of_nil|].
  destruct (decide (x = y)) as [->|Hne]; simpl.
  - intros _. by rewrite !without_cons_eq.
  - intros [?|Hin]%elem_of_cons; [done|].
    by rewrite !without_cons_ne, IH.
Qed.

End without_app.

(** ** Project lists and rosters *)

(** The four methods that change a developer's project list keep it free
    of duplicates, for every developer and whether they return or
    raise. *)
Lemma mutators_keep_NoDup
    (s : Store) (D D' : dev_ref) (P : proj_ref)
    (Hdistinct : NoDup (projects (developer s D'))) :
  NoDup (projects (developer (exec (Developer.assign D P) s) D'))
  ∧ NoDup (projects
             (developer (exec (Developer.cancel_appointment D P) s) D'))
  ∧ NoDup (projects (developer (exec (Project.add_developer P D) s) D'))
  ∧ NoDup (projects (developer (exec (Project.remove_developer P D) s) D')).
Proof.
  assert (∀ ps : list proj_ref, NoDup ps →
            NoDup (if decide (P ∈ ps) then ps else ps ++ [P])) as Happend.
  { intros ps Hps. case_decide; [done|].
    apply NoDup_app. split; [done|]. split; [|apply NoDup_singleton].
    by intros x Hx ->%list_elem_of_singleton. }
  destruct (assign_exec s D P) as (Ha & _ & Ha' & _).
  destruct (cancel_exec s D P) as (_ & Hc & _ & Hc' & _).
  destruct (add_developer_exec s P D) as (_ & _ & _ & _ & Hadd & _ & Hadd' & _).
  destruct (remove_developer_exec s P D)
    as (_ & _ & _ & _ & Hrm & _ & Hrm' & _).
  destruct (decide (D' = D)) as [->|Hne].
  - rewrite Ha, Hc, Hadd, Hrm.
    auto using without_NoDup.
  - by rewrite Ha', Hc', Hadd', Hrm'.
Qed.

(** X2: on a project list free of duplicates [cancel_appointment]
    removes the project and nothing else, the other projects keeping
    their order; a second call changes nothing. *)
Theorem cancel_appointment_removes_exactly
    (s : Store) (D : dev_ref) (P : proj_ref)
    (Hdistinct : NoDup (projects (developer s D))) :
  ∃ s1, Developer.cancel_appointment D P s = (Return tt, s1)
        ∧ projects (developer s1 D)
          = filter (λ Q, Q ≠ P) (projects (developer s D))
        ∧ (P ∉ projects (developer s1 D))
        ∧ Developer.cancel_appointment D P s1 = (Return tt, s1).
Proof.
  destruct (cancel_exec s D P) as (Hret & Hps & _).
  exists (exec (Developer.cancel_appointment D P) s).
  assert (P ∉ projects
                (developer (exec (Developer.cancel_appointment D P) s) D))
    as Hgone by (rewrite Hps; by apply without_NoDup_absent).
  split; [by rewrite run_pair, Hret|].
  split; [by rewrite Hps, without_NoDup_filter|].
  split; [done|]. by apply cancel_absent.
Qed.

Lemma cancel_appointment_removes_exactly_witness :
  let s := exec two_websites blank_store in
  ∃ s1, Developer.cancel_appointment 2 0 s = (Return tt, s1)
        ∧ projects (developer s1 2)
          = filter (λ Q, Q ≠ 0) (projects (developer s 2))
        ∧ (0 ∉ projects (developer s1 2))
        ∧ Developer.cancel_appointment 2 0 s1 = (Return tt, s1).
Proof.
  intros s. apply (cancel_appointment_removes_exactly s 2 0).
  apply NoDup_singleton.
Defined.

Lemma add_then_remove_exec (s : Store) (P : proj_ref) (D : dev_ref) :
  let both := (Project.add_developer P D;; Project.remove_developer P D) in
  eval both s = Return tt
  ∧ developers (project (exec both s) P)
    = without D (developers (project s P) ++ [D])
  ∧ developers (project (exec both s) P) ≡ₚ developers (project s P)
  ∧ projects (developer (exec both s) D)
    = without P (projects (developer s D)).
Proof.
  intros both.
  destruct (add_developer_exec s P D) as (Hret & Hds & _ & _ & Hps & _).
  set (s1 := exec (Project.add_developer P D) s) in *.
  destruct (remove_developer_exec s1 P D)
    as (Hret2 & Hds2 & _ & _ & Hps2 & _).
  assert (D ∈ developers (project s1 P)) as Hin.
  { rewrite Hds. apply elem_of_app. right. by apply list_elem_of_singleton. }
  rewrite decide_True in Hret2 by done.
  unfold both. rewrite (eval_bind _ _ _ _ Hret), (exec_bind _ _ _ _ Hret).
  fold s1. split; [done|]. rewrite Hds2, Hps2, Hds, Hps.
  split; [done|]. split.
  - apply (Permutation_cons_inv (a := D)).
    rewrite without_Permutation by (rewrite <-Hds; done).
    by rewrite Permutation_app_comm.
  - case_decide as Hheld; [done|].
    by rewrite without_snoc, without_absent.
Qed.

(** X3: [add_developer] followed by [remove_developer] always returns;
    the roster ends up a rearrangement of what it was (the first
    occurrence of the developer goes, the appended one stays) and the
    developer no longer holds the first occurrence of the project,
    even if the project was held before the two calls. *)
Theorem add_then_remove_developer (s : Store) (P : proj_ref) (D : dev_ref) :
  let both := (Project.add_developer P D;; Project.remove_developer P D) in
  eval both s = Return tt
  ∧ developers (project (exec both s) P)
    = without D (developers (project s P) ++ [D])
  ∧ developers (project (exec both s) P) ≡ₚ developers (project s P)
  ∧ projects (developer (exec both s) D)
    = without P (projects (developer s D)).
Proof. apply add_then_remove_exec. Qed.

(** X4: if the developer is not in the roster, two [add_developer]
    calls and one [remove_developer] call leave the developer in the
    roster; if moreover the developer's project list has no duplicates,
    it no longer has the project: the two sides disagree. *)
Theorem add_twice_remove_once_unlinks_one_side
    (s : Store) (P : proj_ref) (D : dev_ref)
    (Hnew : D ∉ developers (project s P))
    (Hdistinct : NoDup (projects (developer s D))) :
  let calls := (Project.add_developer P D;; Project.add_developer P D;;
                Project.remove_developer P D) in
  eval calls s = Return tt
  ∧ developers (project (exec calls s) P) = developers (project s P) ++ [D]
  ∧ D ∈ developers (project (exec calls s) P)
  ∧ P ∉ projects (developer (exec calls s) D).
Proof.
  intros calls.
  destruct (add_developer_exec s P D) as (Hret & Hds & _ & _ & Hps & _).
  set (s1 := exec (Project.add_developer P D) s) in *.
  destruct (add_then_remove_exec s1 P D) as (Hret2 & Hds2 & _ & Hps2).
  unfold calls. rewrite (eval_bind _ _ _ _ Hret), (exec_bind _ _ _ _ Hret).
  fold s1. split; [done|].
  assert (developers
            (project
               (exec (Project.add_developer P D;;
                      Project.remove_developer P D) s1) P)
          = developers (project s P) ++ [D]) as Hroster.
  { rewrite Hds2, Hds, <-app_assoc, without_app_absent by done.
    simpl. by rewrite without_cons_eq. }
  split; [done|]. split.
  - rewrite Hroster. apply elem_of_app. right.
    by apply list_elem_of_singleton.
  - rewrite Hps2, Hps. case_decide as Hheld.
    + by apply without_NoDup_absent.
    + rewrite without_snoc by done. done.
Qed.

Lemma add_twice_remove_once_unlinks_one_side_witness :
  let s := exec (alice_and_website "09/30/2022") blank_store in
  let calls := (Project.add_developer 1 0;; Project.add_developer 1 0;;
                Project.remove_developer 1 0) in
  eval calls s = Return tt
  ∧ developers (project (exec calls s) 1) = developers (project s 1) ++ [0]
  ∧ 0 ∈ developers (project (exec calls s) 1)
  ∧ 1 ∉ projects (developer (exec calls s) 0).
Proof.
  intros s. apply (add_twice_remove_once_unlinks_one_side s 1 0).
  - apply not_elem_of_nil.
  - apply NoDup_nil_2.
Defined.

(** X5: [remove_developer] returns exactly when the roster holds the
    developer.  On a roster and a project list free of duplicates it
    then takes the developer out of the roster and the project out of
    the developer's list, leaves every other project and developer as
    they were, and a second call raises. *)
Theorem remove_developer_unlinks_both_sides
    (s0 : Store) (P0 : proj_ref) (D0 : dev_ref)
    (s : Store) (P : proj_ref) (D : dev_ref)
    (Hpresent : D ∈ developers (project s P))
    (Hroster : NoDup (developers (project s P)))
    (Hprojects : NoDup (projects (developer s D))) :
  (eval (Project.remove_developer P0 D0) s0 = Return tt
   ↔ D0 ∈ developers (project s0 P0))
  ∧ ∃ s1,
      Project.remove_developer P D s = (Return tt, s1)
      ∧ developers (project s1 P)
        = filter (λ E, E ≠ D) (developers (project s P))
      ∧ projects (developer s1 D)
        = filter (λ Q, Q ≠ P) (projects (developer s D))
      ∧ (D ∉ developers (project s1 P))
      ∧ (P ∉ projects (developer s1 D))
      ∧ (∀ P', P' ≠ P → project s1 P' = project s P')
      ∧ (∀ D', D' ≠ D → developer s1 D' = developer s D')
      ∧ is_ValueError (eval (Project.remove_developer P D) s1).
Proof.
  split.
  - destruct (remove_developer_exec s0 P0 D0) as (-> & _).
    by case_decide.
  - destruct (remove_developer_exec s P D)
      as (Hret & Hds & _ & Hothers & Hps & _ & Hdevs & _).
    set (s1 := exec (Project.remove_developer P D) s) in *.
    rewrite decide_True in Hret by done.
    assert (D ∉ developers (project s1 P)) as Hgone
      by (rewrite Hds; by apply without_NoDup_absent).
    exists s1. split; [by rewrite run_pair, Hret|].
    split; [by rewrite Hds, without_NoDup_filter|].
    split; [by rewrite Hps, without_NoDup_filter|].
    split; [done|].
    split; [rewrite Hps; by apply without_NoDup_absent|].
    split; [done|]. split; [done|].
    destruct (remove_developer_exec s1 P D) as (-> & _).
    rewrite decide_False by done. by eexists.
Qed.

Lemma remove_developer_unlinks_both_sides_witness :
  let s := exec (alice_and_website "09/30/2022";; Project.add_developer 1 0)
             blank_store in
  ∃ s1,
    Project.remove_developer 1 0 s = (Return tt, s1)
    ∧ (0 ∉ developers (project s1 1))
    ∧ (1 ∉ projects (developer s1 0))
    ∧ is_ValueError (eval (Project.remove_developer 1 0) s1).
Proof.
  intros s.
  destruct (remove_developer_unlinks_both_sides s 1 0 s 1 0)
    as (_ & s1 & Hrun & _ & _ & Hroster & Hprojects & _ & _ & Hagain).
  - by apply list_elem_of_singleton.
  - apply NoDup_singleton.
  - apply NoDup_singleton.
  - by exists s1.
Defined.

Lemma add_developers_exec (P : proj_ref) (ds : list dev_ref) (s : Store) :
  eval (add_developers P ds) s = Return tt
  ∧ developers (project (exec (add_developers P ds) s) P)
    = developers (project s P) ++ ds
  ∧ proj_fixed (project (exec (add_developers P ds) s) P)
    = proj_fixed (project s P).
Proof.
  revert s. induction ds as [|D rest IH]; intros s.
  - simpl. by rewrite app_nil_r.
  - destruct (add_developer_exec s P D) as (Hret & Hds & Hfixed & _).
    simpl add_developers.
    rewrite (eval_bind _ _ _ _ Hret), (exec_bind _ _ _ _ Hret).
    destruct (IH (exec (Project.add_developer P D) s)) as (-> & -> & ->).
    by rewrite Hds, Hfixed, <-app_assoc.
Qed.

(** X6: the limit of a project is never consulted: adding any number of
    developers in turn returns, puts them all on the roster in the order
    of the calls, and leaves the limit as it was, so the roster can
    outgrow it. *)
Theorem add_developer_ignores_limit
    (s : Store) (P : proj_ref) (ds : list dev_ref) :
  let s1 := exec (add_developers P ds) s in
  add_developers P ds s = (Return tt, s1)
  ∧ developers (project s1 P) = developers (project s P) ++ ds
  ∧ length (developers (project s1 P))
    = length (developers (project s P)) + length ds
  ∧ limit (project s1 P) = limit (project s P)
  ∧ (limit (project s P) < Z.of_nat (length ds) →
     limit (project s1 P) < Z.of_nat (length (developers (project s1 P))))%Z.
Proof.
  intros s1. destruct (add_developers_exec P ds s) as (Hret & Hds & Hfixed).
  fold s1 in Hds, Hfixed.
  assert (limit (project s1 P) = limit (project s P)) as Hlimit
    by (unfold proj_fixed in Hfixed; congruence).
  split; [by rewrite run_pair, Hret|]. split; [done|].
  rewrite Hds, length_app, Hlimit. repeat split; lia.
Qed.

(** X7: a successful [assign] puts the title of the project at the end
    of what [get_assigned_projects] returns for that developer, changes
    the answer for no other developer, and touches no roster. *)
Theorem assign_appends_title_only_there
    (s s1 : Store) (D : dev_ref) (P : proj_ref)
    (Hassign : Developer.assign D P s = (Return tt, s1)) :
  ∃ titles,
    Developer.get_assigned_projects D s = (Return titles, s)
    ∧ Developer.get_assigned_projects D s1
      = (Return (titles ++ [title (project s P)]), s1)
    ∧ (∀ D', D' ≠ D →
         eval (Developer.get_assigned_projects D') s1
         = eval (Developer.get_assigned_projects D') s)
    ∧ (∀ P', developers (project s1 P') = developers (project s P')).
Proof.
  pose proof (assign_Return_inv _ _ _ _ Hassign) as Hnot.
  destruct (assign_exec s D P) as (Hps & _ & Hothers & Hproj & _).
  unfold exec in *. rewrite Hassign in *. simpl in *.
  rewrite decide_False in Hps by done.
  eexists. rewrite !get_assigned_projects_eq. split; [reflexivity|].
  split; [by rewrite Hps, Hproj, fmap_app|].
  split; [|by rewrite Hproj].
  intros D' Hne. unfold eval. rewrite !get_assigned_projects_eq. simpl.
  by rewrite Hproj, (Hothers D' Hne).
Qed.

Lemma assign_appends_title_only_there_witness :
  let s := exec two_websites blank_store in
  ∃ titles,
    Developer.get_assigned_projects 2 s = (Return titles, s)
    ∧ eval (Developer.get_assigned_projects 2) (exec (Developer.assign 2 1) s)
      = Return (titles ++ ["Website"]).
Proof.
  intros s.
  destruct (assign_appends_title_only_there s
              (exec (Developer.assign 2 1) s) 2 1)
    as (titles & Hbefore & Hafter & _).
  - by rewrite run_pair.
  - exists titles. split; [done|]. unfold eval. by rewrite Hafter.
Defined.

(** ** Assignments: errors, repetition and the query date *)

Lemma done_tasks_missing (items : list (string * Task)) :
  Exists (λ kt, kt.2 !! "is_done" = None) items →
  Assignment.done_tasks items = Raise (KeyError "is_done").
Proof.
  induction items as [|[k task] rest IH]; [by intros ?%Exists_nil|].
  intros [Hhead|Htail]%Exists_cons; simpl in *.
  - by rewrite Hhead.
  - destruct (task !! "is_done"); [|done]. by rewrite IH.
Qed.

Lemma flag_missing_or_everywhere (items : list (string * Task)) :
  Exists (λ kt, kt.2 !! "is_done" = None) items
  ∨ Forall (λ kt, has_flag kt.2) items.
Proof.
  induction items as [|[k task] rest [IH|IH]].
  - right. constructor.
  - left. by apply Exists_cons_tl.
  - destruct (task !! "is_done") as [flag|] eqn:E.
    + right. constructor; [by exists flag|done].
    + left. by apply Exists_cons_hd.
Qed.

Lemma calculate_status_returns s a :
  Forall (λ kt, has_flag kt.2) (received_tasks (assignment s a)) →
  eval (Assignment.calculate_status a) s = Return tt.
Proof.
  intros Hflags. pose proof (done_tasks_flagged _ Hflags) as Hdone.
  destruct ((filter (λ kt : string * Task, completed kt.2)
               (received_tasks (assignment s a))).*2)
    as [|task rest] eqn:E.
  - unfold eval. by rewrite (calculate_status_none_done _ _ Hdone).
  - assert (length (task :: rest)
            ≤ length (received_tasks (assignment s a)))%nat as Hle
      by (rewrite <-E, length_fmap; apply length_filter).
    simpl length in Hle.
    destruct (true_div_returns
                (100 * Assignment.len (task :: rest))
                (Assignment.len (received_tasks (assignment s a))))
      as [q Hq]; [unfold Assignment.len; simpl length; lia..|].
    unfold eval. by rewrite (calculate_status_some_done s a task rest q).
Qed.

(** X8: the only way [calculate_status] fails is a task record without
    the "is_done" key: then it raises [KeyError] and leaves the store as
    it was, even if other tasks are completed; in particular it never
    divides by zero. *)
Theorem calculate_status_fails_only_on_missing_flag
    (s0 : Store) (a0 : asg_ref) (s : Store) (a : asg_ref)
    (Hmissing : Exists (λ kt, kt.2 !! "is_done" = None)
                  (received_tasks (assignment s a))) :
  Assignment.calculate_status a s = (Raise (KeyError "is_done"), s)
  ∧ (eval (Assignment.calculate_status a0) s0 = Return tt
     ∨ Assignment.calculate_status a0 s0 = (Raise (KeyError "is_done"), s0))
  ∧ (eval (Assignment.calculate_status a0) s0 = Return tt
     ↔ Forall (λ kt, has_flag kt.2) (received_tasks (assignment s0 a0))).
Proof.
  assert (∀ s a,
    Exists (λ kt : string * Task, kt.2 !! "is_done" = None)
      (received_tasks (assignment s a)) →
    Assignment.calculate_status a s = (Raise (KeyError "is_done"), s))
    as Hraise.
  { clear. intros s a Hmissing.
    unfold Assignment.calculate_status, bind, get_assignment, lift.
    by rewrite (done_tasks_missing _ Hmissing). }
  split; [by apply Hraise|].
  destruct (flag_missing_or_everywhere (received_tasks (assignment s0 a0)))
    as [Hsome|Hall].
  - pose proof (Hraise _ _ Hsome) as Hrun. split; [by right|].
    unfold eval. rewrite Hrun. simpl. split; [done|].
    intros Hall. exfalso. clear -Hsome Hall.
    induction Hall as [|kt rest [flag Hflag] _ IH];
      [by apply Exists_nil in Hsome|].
    apply Exists_cons in Hsome as [Hhead|Htail]; [congruence|by apply IH].
  - pose proof (calculate_status_returns _ _ Hall). split; [by left|done].
Qed.

Lemma calculate_status_fails_only_on_missing_flag_witness :
  let s := exec unflagged blank_store in
  Assignment.calculate_status 0 s = (Raise (KeyError "is_done"), s).
Proof.
  intros s.
  apply (calculate_status_fails_only_on_missing_flag s 0 s 0).
  by apply Exists_cons_hd.
Defined.

Lemma calculate_status_same_tasks s a s0 a0 :
  received_tasks (assignment s0 a0) = received_tasks (assignment s a) →
  eval (Assignment.calculate_status a0) s0
  = eval (Assignment.calculate_status a) s.
Proof.
  intros Hsame. unfold eval, Assignment.calculate_status, bind,
    get_assignment, lift. rewrite Hsame.
  destruct (Assignment.done_tasks (received_tasks (assignment s a)))
    as [[|task tasks]|e]; simpl; [done| |done].
  by destruct (Float.true_div _ _).
Qed.

(** X9: calling [calculate_status] a second time changes nothing: it
    ends the same way and every object is as the first call left it. *)
Theorem calculate_status_twice_is_once (s : Store) (a : asg_ref) :
  let s1 := exec (Assignment.calculate_status a) s in
  let s2 := exec (Assignment.calculate_status a) s1 in
  eval (Assignment.calculate_status a) s1
  = eval (Assignment.calculate_status a) s
  ∧ (∀ b, assignment s2 b = assignment s1 b)
  ∧ developer s2 = developer s1 ∧ project s2 = project s1
  ∧ stdout s2 = stdout s1.
Proof.
  intros s1 s2.
  assert (received_tasks (assignment s1 a) = received_tasks (assignment s a))
    as Hsame.
  { destruct (calculate_status_cases s a _ _ (run_pair _ _))
      as [Heq|(st & _ & Heq)]; fold s1 in Heq; rewrite Heq; [done|].
    unfold exec, set_status. simpl. by rewrite fn_lookup_insert. }
  pose proof (calculate_status_same_tasks s a s1 a Hsame) as Heval.
  split; [done|].
  destruct (eval (Assignment.calculate_status a) s) as [[]|e] eqn:Hfirst.
  - destruct (calculate_status_Return_status s a s1) as (st & Hs1 & _ & Hnext).
    { unfold s1. by rewrite run_pair, Hfirst. }
    assert (s2 = exec (set_status a st) s1) as Hs2.
    { apply Hnext; [done|]. unfold s2. by rewrite run_pair, Heval. }
    rewrite Hs2, Hs1. unfold exec, set_status. simpl. repeat split.
    intros b. destruct (decide (b = a)) as [->|Hne].
    + by rewrite !fn_lookup_insert.
    + by rewrite !fn_lookup_insert_ne.
  - destruct (calculate_status_cases s1 a _ _ (run_pair _ _))
      as [Heq|(st & Hret & _)]; [fold s2 in Heq; by rewrite Heq|].
    congruence.
Qed.

Lemma tasks_before_outcome d (items : list (string * Task)) :
  match Assignment.tasks_before d items with
  | Return ts =>
      Forall (λ kt, parses kt.1) items
      ∧ ts = (filter (λ kt, earlier d kt.1) items).*2
  | Raise e =>
      (∃ msg, e = ValueError msg) ∧ Exists (λ kt, ¬ parses kt.1) items
  end.
Proof.
  induction items as [|[k task] rest IH]; simpl; [by split|].
  destruct (Datetime.strptime k) as [dk|e] eqn:Hk.
  - destruct (Assignment.tasks_before d rest) as [ts|e].
    + destruct IH as [Hkeys ->]. split; [constructor; [by exists dk|done]|].
      rewrite filter_cons. simpl.
      assert (earlier d k = Datetime.lt dk d) as He
        by (unfold earlier; by rewrite Hk).
      destruct (decide (earlier d k)) as [Hyes|Hno];
        rewrite He in *; by destruct (Datetime.lt dk d).
    + destruct IH as [Hmsg Hbad]. split; [done|by apply Exists_cons_tl].
  - split; [by eapply strptime_raises_ValueError|].
    apply Exists_cons_hd. intros [dk Hdk]. simpl in *. congruence.
Qed.

(** X10: [get_tasks_to_date] never changes the store; it returns exactly
    when the date and every key parse, and raises [ValueError] otherwise;
    what it returns is a selection of the mapping's values in their
    order. *)
Theorem get_tasks_to_date_outcome (s : Store) (a : asg_ref) (date : string) :
  let result := eval (Assignment.get_tasks_to_date a date) s in
  let items := received_tasks (assignment s a) in
  exec (Assignment.get_tasks_to_date a date) s = s
  ∧ ((∃ ts, result = Return ts)
     ↔ parses date ∧ Forall (λ kt, parses kt.1) items)
  ∧ ((∃ ts, result = Return ts) ∨ is_ValueError result)
  ∧ (∀ ts, result = Return ts → ts `sublist_of` items.*2).
Proof.
  unfold eval, exec, Assignment.get_tasks_to_date, bind, get_assignment, lift.
  destruct (Datetime.strptime date) as [d|e] eqn:Hdate; simpl.
  - pose proof (tasks_before_outcome d (received_tasks (assignment s a)))
      as Hout.
    destruct (Assignment.tasks_before d _) as [ts|e]; simpl.
    + destruct Hout as [Hkeys ->]. split; [done|].
      split; [split; [intros _; split; [by exists d|done]|eauto]|].
      split; [eauto|]. intros ts [= <-].
      apply fmap_sublist, sublist_filter.
    + destruct Hout as [[msg ->] Hbad]. split; [done|].
      split; [|split; [right; by exists msg|done]].
      split; [by intros [ts ?]|]. intros [_ Hkeys]. exfalso.
      clear -Hbad Hkeys.
      induction Hkeys as [|kt rest Hkt _ IH]; [by apply Exists_nil in Hbad|].
      apply Exists_cons in Hbad as [Hhead|Htail]; [done|by apply IH].
  - destruct (strptime_raises_ValueError _ _ Hdate) as [msg ->].
    split; [done|]. split; [|split; [right; by exists msg|done]].
    split; [by intros [ts ?]|]. intros [[d Hd] _]. congruence.
Qed.

Lemma filter_sublist_impl {A} (P Q : A → Prop)
    `{!∀ x, Decision (P x)} `{!∀ x, Decision (Q x)} (l : list A) :
  (∀ x, P x → Q x) → filter P l `sublist_of` filter Q l.
Proof.
  intros Himpl. induction l as [|x l IH]; [done|].
  rewrite !filter_cons. destruct (decide (P x)) as [HP|HP].
  - rewrite decide_True by auto. by apply sublist_skip.
  - case_decide; [by apply sublist_cons|done].
Qed.

(** X11: a later query date returns at least the tasks of an earlier
    one: what the earlier query returns is a selection, in order, of
    what the later one returns. *)
Theorem get_tasks_to_date_grows_with_date
    (s : Store) (a : asg_ref) (date1 date2 : string)
    (d1 d2 : Datetime.datetime)
    (Hdate1 : Datetime.strptime date1 = Return d1)
    (Hdate2 : Datetime.strptime date2 = Return d2)
    (Hnot_after : Datetime.lt d2 d1 = false)
    (Hkeys : Forall (λ kt, parses kt.1) (received_tasks (assignment s a))) :
  ∃ ts1 ts2,
    Assignment.get_tasks_to_date a date1 s = (Return ts1, s)
    ∧ Assignment.get_tasks_to_date a date2 s = (Return ts2, s)
    ∧ ts1 `sublist_of` ts2.
Proof.
  eexists _, _.
  unfold Assignment.get_tasks_to_date, bind, get_assignment, lift.
  rewrite Hdate1, Hdate2, !(tasks_before_parsed _ _ Hkeys).
  split; [done|]. split; [done|].
  apply fmap_sublist, filter_sublist_impl. intros [k task]. simpl.
  unfold earlier. destruct (Datetime.strptime k) as [dk|]; [|done].
  intros Hlt%Is_true_true. apply Is_true_true.
  apply not_true_iff_false in Hnot_after.
  rewrite datetime_lt_spec in *. lia.
Qed.

Lemma get_tasks_to_date_grows_with_date_witness :
  let s := exec september_and_october blank_store in
  ∃ ts1 ts2,
    Assignment.get_tasks_to_date 0 "09/30/2022" s = (Return ts1, s)
    ∧ Assignment.get_tasks_to_date 0 "10/02/2022" s = (Return ts2, s)
    ∧ ts1 `sublist_of` ts2.
Proof.
  intros s.
  apply (get_tasks_to_date_grows_with_date s 0 "09/30/2022" "10/02/2022"
           {| Datetime.year := 2022; Datetime.month := 9;
              Datetime.day := 30 |}
           {| Datetime.year := 2022; Datetime.month := 10;
              Datetime.day := 2 |}); try reflexivity.
  repeat constructor; by eexists.
Defined.

(** ** Sequences of calls *)

(** Unfolds a call down to the store it leaves. *)
Ltac run_call :=
  unfold exec, eval, perform, Developer.init, QAEngineer.init,
    ProjectManager.init, Project.init, Assignment.init,
    Developer.to_str, QAEngineer.test_feature,
    ProjectManager.discuss_progress, Assignment.get_tasks_to_date,
    Assignment.calculate_status,
    Project.add_developer, Project.remove_developer,
    Developer.assign, Developer.cancel_appointment,
    Developer.get_assigned_projects, try_except_ValueError,
    fresh, next_Developer_id, next_QAEngineer_id, next_ProjectManager_id,
    bind, ret, raise, lift, print, get_developer, get_project,
    get_assignment, get_project_manager, get_qa_engineer,
    set_projects, set_developers, set_status;
  simpl;
  repeat (case_match; simplify_eq/=; try done).

(** What one call leaves alone. *)
Lemma perform_step (c : call) (s : Store) :
  let s1 := exec (perform c) s in
  (next_ref s ≤ next_ref s1)%nat
  ∧ (∀ r, r < next_ref s → dev_fixed (developer s1 r) = dev_fixed (developer s r))%nat
  ∧ (∀ r, r < next_ref s → proj_fixed (project s1 r) = proj_fixed (project s r))%nat
  ∧ (∀ r, r < next_ref s → asg_fixed (assignment s1 r) = asg_fixed (assignment s r))%nat
  ∧ (∀ r, r < next_ref s → qa_engineer s1 r = qa_engineer s r)%nat
  ∧ (∀ r, r < next_ref s → project_manager s1 r = project_manager s r)%nat.
Proof.
  assert (∀ {A} (h : nat → A) (x : A) (r : nat),
            (r < next_ref s)%nat → <[next_ref s := x]> h r = h r) as Hfresh.
  { intros A h x r Hr. apply fn_lookup_insert_ne. lia. }
  assert (∀ {A B} (f : A → B) (h : nat → A) (x : A) (k r : nat),
            f x = f (h k) → f (<[k := x]> h r) = f (h r)) as Hsame.
  { intros A B f h x k r Hx. destruct (decide (k = r)) as [->|Hne].
    - by rewrite fn_lookup_insert.
    - by rewrite fn_lookup_insert_ne. }
  destruct c; run_call;
    (split; [lia|]); repeat apply conj; intros r Hr;
    rewrite ?Hfresh by done; try done; by apply Hsame.
Qed.

Lemma perform_all_cons c cs s :
  perform_all (c :: cs) s = perform_all cs (exec (perform c) s).
Proof. reflexivity. Qed.

Lemma perform_all_step (cs : list call) (s : Store) :
  (next_ref s ≤ next_ref (perform_all cs s))%nat
  ∧ (∀ r, r < next_ref s →
       dev_fixed (developer (perform_all cs s) r) = dev_fixed (developer s r)
       ∧ proj_fixed (project (perform_all cs s) r) = proj_fixed (project s r)
       ∧ asg_fixed (assignment (perform_all cs s) r)
         = asg_fixed (assignment s r)
       ∧ qa_engineer (perform_all cs s) r = qa_engineer s r
       ∧ project_manager (perform_all cs s) r = project_manager s r)%nat.
Proof.
  revert s. induction cs as [|c cs IH]; intros s; [done|].
  rewrite perform_all_cons.
  destruct (perform_step c s) as (Hle & Hdev & Hproj & Hasg & Hqa & Hpm).
  destruct (IH (exec (perform c) s)) as [Hle' Hrest].
  split; [lia|]. intros r Hr.
  destruct (Hrest r) as (-> & -> & -> & -> & ->); [lia|].
  by rewrite Hdev, Hproj, Hasg, Hqa, Hpm.
Qed.

(** X12: no sequence of constructor and method calls changes, in an
    object that exists already, the identifier, the personal attributes
    or the assignment list of a developer, the title, start date, task
    list or limit of a project, the description, tasks or [is_done] of
    an assignment, or anything of a QA engineer or project manager. *)
Theorem existing_objects_keep_their_attributes
    (cs : list call) (s : Store) (r : nat)
    (Hexists : r < next_ref s) :
  let s1 := perform_all cs s in
  dev_fixed (developer s1 r) = dev_fixed (developer s r)
  ∧ proj_fixed (project s1 r) = proj_fixed (project s r)
  ∧ asg_fixed (assignment s1 r) = asg_fixed (assignment s r)
  ∧ qa_engineer s1 r = qa_engineer s r
  ∧ project_manager s1 r = project_manager s r.
Proof. by apply perform_all_step. Qed.

Lemma existing_objects_keep_their_attributes_witness :
  let s := exec (alice_and_website "09/30/2022") blank_store in
  let s1 := perform_all [AddDeveloper 1 0; NewProject "10/01/2022" "App" 3;
                         RemoveDeveloper 1 0; AddDeveloper 2 0] s in
  dev_fixed (developer s1 1) = dev_fixed (developer s 1)
  ∧ proj_fixed (project s1 1) = proj_fixed (project s 1)
  ∧ asg_fixed (assignment s1 1) = asg_fixed (assignment s 1)
  ∧ qa_engineer s1 1 = qa_engineer s 1
  ∧ project_manager s1 1 = project_manager s 1.
Proof.
  intros s.
  apply (existing_objects_keep_their_attributes
           [AddDeveloper 1 0; NewProject "10/01/2022" "App" 3;
            RemoveDeveloper 1 0; AddDeveloper 2 0] s 1).
  vm_compute. lia.
Defined.

Lemma perform_counter (k : person) (c : call) (s : Store) :
  id_iter k (exec (perform c) s)
  = (if constructs k c then S (id_iter k s) else id_iter k s)
  ∧ (constructs k c = true →
     id_of k (exec (perform c) s) (next_ref s) = id_iter k s
     ∧ next_ref (exec (perform c) s) = S (next_ref s)).
Proof.
  destruct k, c; run_call; split; try done; intros _;
    by rewrite fn_lookup_insert.
Qed.

Lemma id_of_fixed (k : person) (s s1 : Store) (r : nat) :
  dev_fixed (developer s1 r) = dev_fixed (developer s r) →
  qa_engineer s1 r = qa_engineer s r →
  project_manager s1 r = project_manager s r →
  id_of k s1 r = id_of k s r.
Proof.
  unfold dev_fixed. intros Hdev Hqa Hpm.
  destruct k; simpl; congruence.
Qed.

(** X13: the instances of each of the three classes created along any
    sequence of calls get the consecutive identifiers from the value of
    the class's counter on, whatever else is created or called in
    between, the three counters being independent; so no two instances
    of a class share an identifier. *)
Theorem identifiers_count_up (k : person) (cs : list call) (s : Store) :
  let s1 := perform_all cs s in
  id_of k s1 <$> created k cs s
  = seq (id_iter k s) (length (created k cs s))
  ∧ id_iter k s1 = id_iter k s + length (created k cs s)
  ∧ NoDup (id_of k s1 <$> created k cs s).
Proof.
  assert (∀ cs s,
    id_of k (perform_all cs s) <$> created k cs s
    = seq (id_iter k s) (length (created k cs s))
    ∧ id_iter k (perform_all cs s)
      = id_iter k s + length (created k cs s)) as Hids.
  { clear. intros cs. induction cs as [|c cs IH]; intros s; [by simpl|].
    rewrite perform_all_cons.
    destruct (IH (exec (perform c) s)) as [IHids IHcounter].
    destruct (perform_counter k c s) as [Hcounter Hnew].
    destruct (perform_all_step cs (exec (perform c) s)) as [_ Hkeep].
    set (s0 := exec (perform c) s) in *.
    assert (created k (c :: cs) s
            = (if constructs k c then [next_ref s] else [])
              ++ created k cs s0) as -> by done.
    rewrite fmap_app, length_app, seq_app, IHids, IHcounter, Hcounter.
    clearbody s0.
    destruct (constructs k c); simpl; rewrite ?Nat.add_0_r;
      [|split; [done|lia]].
    destruct Hnew as [Hid Hnext]; [done|].
    destruct (Hkeep (next_ref s)) as (Hdev & _ & _ & Hqa & Hpm); [lia|].
    rewrite (id_of_fixed k s0 _ _ Hdev Hqa Hpm), Hid.
    split; [|lia]. do 2 f_equal. lia. }
  intros s1. destruct (Hids cs s) as [Hseq Hcounter].
  split; [done|]. split; [done|].
  unfold s1. rewrite Hseq. apply NoDup_seq.
Qed.

Lemma perform_NoDup (c : call) (s : Store) (D : dev_ref) :
  NoDup (projects (developer s D)) →
  NoDup (projects (developer (exec (perform c) s) D)).
Proof.
  intros Hdistinct.
  destruct c;
    try (by apply (mutators_keep_NoDup s _ D));
    try (run_call; done).
  run_call. destruct (decide (next_ref s = D)) as [->|Hne].
  - rewrite fn_lookup_insert. apply NoDup_nil_2.
  - by rewrite fn_lookup_insert_ne.
Qed.

(** X1: if no developer's project list has a duplicate, none has one
    after any sequence of constructor and method calls, whichever of
    them raise; so it is in every store a client reaches from the blank
    one through the module alone. *)
Theorem project_lists_stay_duplicate_free
    (cs cs0 : list call) (s : Store) (D D0 : dev_ref)
    (Hstart : ∀ D', NoDup (projects (developer s D'))) :
  NoDup (projects (developer (perform_all cs s) D))
  ∧ NoDup (projects (developer (perform_all cs0 blank_store) D0)).
Proof.
  assert (∀ cs s, (∀ D', NoDup (projects (developer s D'))) →
                  ∀ D', NoDup (projects (developer (perform_all cs s) D')))
    as Hall.
  { clear. intros cs. induction cs as [|c cs IH]; intros s Hs; [done|].
    rewrite perform_all_cons. apply IH. intros D'. by apply perform_NoDup. }
  split; [by apply Hall|].
  apply Hall. intros D'. apply NoDup_nil_2.
Qed.

Lemma project_lists_stay_duplicate_free_witness :
  let cs := [NewDeveloper "Alice" "" "" "" "Junior" "0";
             NewProject "09/30/2022" "Website" 2;
             AddDeveloper 1 0; Assign 0 1; AddDeveloper 1 0;
             CancelAppointment 0 1; Assign 0 1] in
  NoDup (projects (developer (perform_all cs blank_store) 0)).
Proof.
  intros cs.
  apply (project_lists_stay_duplicate_free cs [] blank_store 0 0).
  intros D'. apply NoDup_nil_2.
Defined.

Lemma perform_untouched (c : call) (s : Store) :
  (∀ r, untouched (assignment s r)) →
  ∀ r, untouched (assignment (exec (perform c) s) r).
Proof.
  intros Hs r.
  assert (∀ self, assignment (exec (perform (CalculateStatus self)) s) r
                  = assignment (exec (set_status self "0%") s) r) as Hcalc.
  { intros self. simpl perform. unfold exec at 1.
    rewrite (calculate_status_none_done s self); [done|].
    by destruct (Hs self) as (-> & _). }
  destruct c; try rewrite Hcalc; try (run_call; done); simpl perform;
    try match goal with
      | |- context [exec (Developer.assign ?D ?P) s] =>
          by destruct (assign_exec s D P) as (_ & _ & _ & _ & ->)
      | |- context [exec (Developer.cancel_appointment ?D ?P) s] =>
          by destruct (cancel_exec s D P) as (_ & _ & _ & _ & _ & ->)
      | |- context [exec (Project.add_developer ?P ?D) s] =>
          by destruct (add_developer_exec s P D)
            as (_ & _ & _ & _ & _ & _ & _ & ->)
      | |- context [exec (Project.remove_developer ?P ?D) s] =>
          by destruct (remove_developer_exec s P D)
            as (_ & _ & _ & _ & _ & _ & _ & ->)
      end.
  - run_call. destruct (decide (next_ref s = r)) as [->|Hne].
    + rewrite fn_lookup_insert. unfold untouched. simpl. auto.
    + by rewrite fn_lookup_insert_ne.
  - unfold exec, set_status. simpl.
    destruct (decide (self = r)) as [->|Hne].
    + rewrite fn_lookup_insert. destruct (Hs r) as (? & ? & _).
      unfold untouched. simpl. auto.
    + by rewrite fn_lookup_insert_ne.
Qed.

Lemma perform_no_assignments (c : call) (s : Store) :
  (∀ D, assignments (developer s D) = []) →
  ∀ D, assignments (developer (exec (perform c) s) D) = [].
Proof.
  intros Hs D.
  assert (∀ ps k, assignments
            (<[k := {| dev_id := dev_id (developer s k);
                       dev_full_name := dev_full_name (developer s k);
                       dev_address := dev_address (developer s k);
                       dev_email := dev_email (developer s k);
                       dev_phone_number := dev_phone_number (developer s k);
                       dev_position := dev_position (developer s k);
                       dev_salary := dev_salary (developer s k);
                       projects := ps;
                       assignments := assignments (developer s k) |}]>
               (developer s) D) = []) as Hset.
  { intros ps k. destruct (decide (k = D)) as [->|Hne].
    - rewrite fn_lookup_insert. simpl. apply Hs.
    - rewrite fn_lookup_insert_ne by done. apply Hs. }
  destruct c; run_call; rewrite ?Hset; try done.
  destruct (decide (next_ref s = D)) as [->|Hne].
  - by rewrite fn_lookup_insert.
  - by rewrite fn_lookup_insert_ne.
Qed.

(** X14: the module has no method that adds a task, sets [is_done] or
    gives a developer an assignment.  In a store where no client has
    written to these (the blank store is one), they stay empty and
    [False] through any sequence of calls; a status is then never
    anything but the empty string or "0%", which is what
    [calculate_status] sets, and [discuss_progress] has nothing to
    join. *)
Theorem methods_never_fill_tasks_or_assignments
    (cs : list call) (s : Store)
    (Htasks : ∀ a, untouched (assignment s a))
    (Hassignments : ∀ D, assignments (developer s D) = []) :
  let s1 := perform_all cs s in
  (∀ a, received_tasks (assignment s1 a) = []
        ∧ is_done (assignment s1 a) = false
        ∧ (status (assignment s1 a) = "" ∨ status (assignment s1 a) = "0%"))
  ∧ (∀ D, assignments (developer s1 D) = [])
  ∧ (∀ a, Assignment.calculate_status a s1
          = (Return tt, exec (set_status a "0%") s1))
  ∧ (∀ manager D,
       ProjectManager.discuss_progress manager D s1
       = (Return ("Task's progress of  has been tested by "
                  +:+ pm_full_name (project_manager s1 manager)), s1)).
Proof.
  assert (∀ cs s,
    (∀ a, untouched (assignment s a)) →
    (∀ D, assignments (developer s D) = []) →
    (∀ a, untouched (assignment (perform_all cs s) a))
    ∧ (∀ D, assignments (developer (perform_all cs s) D) = [])) as Hall.
  { clear. intros cs. induction cs as [|c cs IH]; intros s Ha Hd; [done|].
    rewrite perform_all_cons.
    apply IH; [by apply perform_untouched|by apply perform_no_assignments]. }
  intros s1. destruct (Hall cs s Htasks Hassignments) as [Ha Hd].
  fold s1 in Ha, Hd. split; [done|]. split; [done|]. split.
  - intros a. apply calculate_status_none_done.
    by destruct (Ha a) as (-> & _).
  - intros manager D.
    unfold ProjectManager.discuss_progress, bind, get_project_manager,
      get_developer, ret.
    by rewrite Hd.
Qed.

Lemma methods_never_fill_tasks_or_assignments_witness :
  let cs := [NewAssignment "Fix bug"; NewDeveloper "Alice" "" "" "" "" "";
             CalculateStatus 0; GetTasksToDate 0 "09/30/2022"] in
  let s1 := perform_all cs blank_store in
  (∀ a, received_tasks (assignment s1 a) = []
        ∧ is_done (assignment s1 a) = false
        ∧ (status (assignment s1 a) = "" ∨ status (assignment s1 a) = "0%"))
  ∧ (∀ D, assignments (developer s1 D) = [])
  ∧ (∀ a, Assignment.calculate_status a s1
          = (Return tt, exec (set_status a "0%") s1))
  ∧ (∀ manager D,
       ProjectManager.discuss_progress manager D s1
       = (Return ("Task's progress of  has been tested by "
                  +:+ pm_full_name (project_manager s1 manager)), s1)).
Proof.
  intros cs.
  apply (methods_never_fill_tasks_or_assignments cs blank_store).
  - intros a. unfold untouched. simpl. auto.
  - done.
Defined.

(** ** The text of a percentage *)

Lemma string_length_app (s1 s2 : string) :
  String.length (s1 +:+ s2) = String.length s1 + String.length s2.
Proof.
  induction s1 as [|c s1 IH]; [done|].
  change (S (String.length (s1 +:+ s2))
          = S (String.length s1 + String.length s2)).
  by rewrite IH.
Qed.

Lemma digits_str_length (ds : list Z) :
  String.length (Float.digits_str ds) = length ds.
Proof.
  induction ds as [|d ds IH]; [done|].
  unfold Float.digits_str in *. simpl foldr.
  rewrite string_length_app, IH. done.
Qed.

Lemma format_repr_length ds decpt :
  (2 ≤ String.length (Float.format_repr ds decpt))%nat.
Proof.
  unfold Float.format_repr.
  destruct (_ || _).
  { rewrite !string_length_app.
    assert (String.length (if (decpt - 1 <? 0)%Z then "-" else "+") = 1)
      as -> by (by destruct (_ <? _)%Z).
    simpl. lia. }
  destruct (decpt <=? 0)%Z eqn:Hpos.
  { rewrite !string_length_app. simpl. lia. }
  destruct (_ <=? decpt)%Z eqn:Hlong.
  { rewrite !string_length_app. simpl. lia. }
  rewrite !string_length_app, !digits_str_length, length_take. simpl.
  apply Z.leb_gt in Hpos, Hlong. lia.
Qed.

Lemma str_length q : (2 ≤ String.length (Float.str q))%nat.
Proof.
  unfold Float.str. rewrite string_length_app.
  destruct (Float.mant q =? 0)%Z; [simpl; lia|].
  destruct (Float.shortest _ _) as [ds decpt].
  pose proof (format_repr_length ds decpt). lia.
Qed.

(** X15: when every task record carries the flag, the status that
    [calculate_status] stores is "0%" exactly when no task is
    completed. *)
Theorem status_is_zero_iff_none_completed
    (s : Store) (a : asg_ref)
    (Hflags : Forall (λ kt, has_flag kt.2) (received_tasks (assignment s a))) :
  status (assignment (exec (Assignment.calculate_status a) s) a) = "0%"
  ↔ length (filter (λ kt, completed kt.2)
              (received_tasks (assignment s a))) = 0.
Proof.
  pose proof (done_tasks_flagged _ Hflags) as Hdone.
  destruct ((filter (λ kt : string * Task, completed kt.2)
               (received_tasks (assignment s a))))
    as [|kt rest] eqn:E; simpl in Hdone.
  - unfold exec at 1. rewrite (calculate_status_none_done _ _ Hdone).
    cbn [snd]. by rewrite status_set_status.
  - assert (length (kt :: rest)
            ≤ length (received_tasks (assignment s a)))%nat as Hle
      by (rewrite <-E; apply length_filter).
    simpl length in Hle.
    destruct (true_div_returns
                (100 * Assignment.len (kt.2 :: rest.*2))
                (Assignment.len (received_tasks (assignment s a))))
      as [q Hq];
      [unfold Assignment.len; simpl length; rewrite ?length_fmap; lia..|].
    unfold exec at 1.
    rewrite (calculate_status_some_done s a _ _ q Hdone Hq). cbn [snd].
    rewrite status_set_status. split; [|done].
    intros Hzero. apply (f_equal String.length) in Hzero.
    rewrite string_length_app in Hzero. pose proof (str_length q).
    simpl in Hzero. lia.
Qed.

Lemma status_is_zero_iff_none_completed_witness :
  let s := exec september_and_october blank_store in
  status (assignment (exec (Assignment.calculate_status 0) s) 0) = "0%"
  ↔ length (filter (λ kt, completed kt.2)
              (received_tasks (assignment s 0))) = 0.
Proof.
  intros s. apply (status_is_zero_iff_none_completed s 0).
  repeat constructor; by eexists.
Defined.

(** ** The size of a percentage *)

Section percentage_bounds.
Local Open Scope Z_scope.

Lemma round_half_even_upper n d N :
  0 < d → n ≤ N * d → Float.round_half_even n d ≤ N.
Proof.
  intros Hd Hn. unfold Float.round_half_even.
  pose proof (Z.div_mod n d) as Hdm. pose proof (Z.mod_pos_bound n d Hd).
  assert (n / d ≤ N) by (apply Z.div_le_upper_bound; lia).
  destruct (2 * (n mod d) ?= d) eqn:Hcmp; [destruct (Z.even _)| |];
    try lia.
  - apply Z.compare_eq in Hcmp. nia.
  - apply Z.compare_gt_iff in Hcmp. nia.
Qed.

Lemma round_half_even_lower n d :
  0 < d → d ≤ n → 1 ≤ Float.round_half_even n d.
Proof.
  intros Hd Hn. unfold Float.round_half_even.
  assert (1 ≤ n / d) by (apply Z.div_le_lower_bound; lia).
  destruct (_ ?= _); [destruct (Z.even _)| |]; lia.
Qed.

(** The rounding unit of [nearest a b] is small enough for [a / b] to
    round to a non-zero mantissa. *)
Lemma nearest_unit a b :
  0 < a → 0 < b → a ≤ 100 * b → b < 2 ^ 1074 →
  let e := Z.max (Float.binade a b - 52) (-1074) in
  e ≤ -46 ∧ b ≤ a * 2 ^ (- e).
Proof.
  intros Ha Hb Hle Hsmall e.
  pose proof (binade_le_6 a b Ha Hb Hle) as Hbin.
  split; [lia|]. unfold e, Float.binade in *.
  destruct (Z.leb_spec b a) as [Hba|Hab].
  - pose proof (Z.log2_nonneg (a / b)).
    assert (1 ≤ 2 ^ (- Z.max (Z.log2 (a / b) - 52) (-1074)))
      by (apply Z.pow_le_mono_r with (b := 0); lia).
    nia.
  - set (c := - (- b / a)) in *.
    assert (b ≤ a * c) as Hc.
    { unfold c. pose proof (Z.div_mod (- b) a).
      pose proof (Z.mod_pos_bound (- b) a Ha). nia. }
    assert (c ≤ 2 ^ Z.log2_up c) as Hlog.
    { destruct (Z.le_gt_cases c 1) as [Hc1|Hc1].
      - rewrite Z.log2_up_eqn0 by done. simpl. lia.
      - by apply Z.log2_up_spec. }
    pose proof (Z.log2_up_nonneg c) as Hk.
    destruct (Z.max_spec (- Z.log2_up c - 52) (-1074)) as [[_ ->]|[_ ->]].
    + change (- -1074) with 1074. nia.
    + assert (2 ^ Z.log2_up c ≤ 2 ^ (- (- Z.log2_up c - 52)))
        by (apply Z.pow_le_mono_r; lia).
      nia.
Qed.

Lemma nearest_bounds a b :
  0 < a → 0 < b → a ≤ 100 * b → b < 2 ^ 1074 →
  let '(m, e) := Float.nearest a b in
  e < 0 ∧ 0 < m ∧ m ≤ 100 * 2 ^ (- e).
Proof.
  intros Ha Hb Hle Hsmall.
  destruct (nearest_unit a b Ha Hb Hle Hsmall) as [He Hunit].
  unfold Float.nearest.
  set (e := Z.max (Float.binade a b - 52) (-1074)) in *.
  replace (e <? 0) with true by (symmetry; apply Z.ltb_lt; lia).
  assert (0 < 2 ^ (- e)) by (apply Z.pow_pos_nonneg; lia).
  pose proof (round_half_even_lower (a * 2 ^ (- e)) b Hb Hunit) as Hlow.
  pose proof (round_half_even_upper (a * 2 ^ (- e)) b (100 * 2 ^ (- e)) Hb)
    as Hup.
  destruct (Z.eqb_spec (Float.round_half_even (a * 2 ^ (- e)) b) (2 ^ 53))
    as [Hcarry|_].
  - split; [lia|]. split; [done|].
    assert (2 ^ (- e) = 2 * 2 ^ (- (e + 1))) as Hpow
      by (rewrite <-Z.pow_succ_r by lia; f_equal; lia).
    rewrite Hcarry in Hup. specialize (Hup ltac:(nia)).
    rewrite Hpow in Hup. change (2 ^ 53) with (2 * 2 ^ 52) in Hup. lia.
  - split; [lia|]. split; [lia|]. apply Hup. nia.
Qed.

End percentage_bounds.

(** X16: with every flag present, at least one task completed and fewer
    than [2^63] tasks, the float whose text [calculate_status] stores is
    positive and at most 100: its sign is plus and its mantissa [m] and
    exponent [e < 0] satisfy [0 < m <= 100 * 2^(-e)]. *)
Theorem percentage_is_positive_and_at_most_100
    (s : Store) (a : asg_ref)
    (Hflags : Forall (λ kt, has_flag kt.2) (received_tasks (assignment s a)))
    (Hsome : Exists (λ kt, completed kt.2 = true)
               (received_tasks (assignment s a)))
    (Hword : (Z.of_nat (length (received_tasks (assignment s a))) < 2 ^ 63)%Z) :
  ∃ q,
    status (assignment (exec (Assignment.calculate_status a) s) a)
    = Float.str q +:+ "%"
    ∧ Float.sign q = false
    ∧ (Float.exp q < 0)%Z
    ∧ (0 < Float.mant q)%Z
    ∧ (Float.mant q ≤ 100 * 2 ^ (- Float.exp q))%Z.
Proof.
  pose proof (done_tasks_flagged _ Hflags) as Hdone.
  set (items := received_tasks (assignment s a)) in *.
  destruct (filter (λ kt : string * Task, completed kt.2) items)
    as [|kt rest] eqn:E.
  { exfalso. apply Exists_exists in Hsome as (kt & Hin & Hkt).
    assert (kt ∈ filter (λ kt : string * Task, completed kt.2) items) as Hf
      by (apply list_elem_of_filter; split; [by rewrite Hkt|done]).
    rewrite E in Hf. by apply elem_of_nil in Hf. }
  assert (length (kt :: rest) ≤ length items)%nat as Hle
    by (rewrite <-E; apply length_filter).
  simpl length in Hle. simpl fmap in Hdone.
  set (n := Assignment.len (kt.2 :: rest.*2)).
  set (d := Assignment.len items).
  assert (0 < n ∧ n ≤ d ∧ d < 2 ^ 63)%Z as (Hn & Hnd & Hd).
  { unfold n, d, Assignment.len. simpl length. rewrite length_fmap. lia. }
  pose proof (nearest_bounds (100 * n) d) as Hbounds.
  assert (Float.true_div (100 * n) d
          = Return {| Float.sign := false;
                      Float.mant := (Float.nearest (100 * n) d).1;
                      Float.exp := (Float.nearest (100 * n) d).2 |}) as Hq.
  { unfold Float.true_div.
    replace (d =? 0)%Z with false by (symmetry; apply Z.eqb_neq; lia).
    replace (100 * n =? 0)%Z with false by (symmetry; apply Z.eqb_neq; lia).
    replace (100 * n <? 0)%Z with false by (symmetry; apply Z.ltb_ge; lia).
    replace (d <? 0)%Z with false by (symmetry; apply Z.ltb_ge; lia).
    rewrite !Z.abs_eq by lia.
    destruct (Float.nearest (100 * n) d) as [m e].
    destruct Hbounds as (He & _); [lia..|].
    by replace (971 <? e)%Z with false by (symmetry; apply Z.ltb_ge; lia). }
  eexists. unfold exec at 1.
  rewrite (calculate_status_some_done s a _ _ _ Hdone Hq). cbn [snd].
  rewrite status_set_status. split; [done|]. simpl.
  destruct (Float.nearest (100 * n) d) as [m e]. simpl.
  destruct Hbounds as (He & Hm & Hup); [lia..|done].
Qed.

Lemma percentage_is_positive_and_at_most_100_witness :
  let s := exec september_and_october blank_store in
  ∃ q,
    status (assignment (exec (Assignment.calculate_status 0) s) 0)
    = Float.str q +:+ "%"
    ∧ Float.sign q = false
    ∧ (Float.exp q < 0)%Z
    ∧ (0 < Float.mant q)%Z
    ∧ (Float.mant q ≤ 100 * 2 ^ (- Float.exp q))%Z.
Proof.
  intros s. apply (percentage_is_positive_and_at_most_100 s 0).
  - repeat constructor; by eexists.
  - by apply Exists_cons_hd.
  - by vm_compute.
Defined.

(** ** What [strptime] accepts *)

Section matchers.
Import Datetime.
Local Open Scope nat_scope.

Lemma range_spec lo hi s t r :
  (t, r) ∈ range lo hi s →
  ∃ c, t = [c] ∧ s = c :: r ∧ code lo ≤ code c ≤ code hi.
Proof.
  unfold range. destruct s as [|c rest]; [by intros ?%elem_of_nil|].
  destruct (_ && _) eqn:Hc; [|by intros ?%elem_of_nil].
  intros [= -> ->]%list_elem_of_singleton. exists c.
  apply andb_true_iff in Hc as [?%Nat.leb_le ?%Nat.leb_le]. done.
Qed.

Lemma seq_spec m1 m2 s t r :
  (t, r) ∈ seq m1 m2 s →
  ∃ t1 r1 t2, (t1, r1) ∈ m1 s ∧ (t2, r) ∈ m2 r1 ∧ t = t1 ++ t2.
Proof.
  unfold seq. intros ([t1 r1] & Hin & H1)%list_elem_of_bind.
  apply list_elem_of_bind in Hin as ([t2 r2] & Hin & H2).
  apply list_elem_of_singleton in Hin as [= -> ->]. eauto 10.
Qed.

Lemma alt_spec m1 m2 s x : x ∈ alt m1 m2 s → x ∈ m1 s ∨ x ∈ m2 s.
Proof. unfold alt. apply elem_of_app. Qed.

Lemma int_snoc t c :
  48 ≤ code c ≤ 57 → int (t ++ [c]) = 10 * int t + (code c - 48).
Proof.
  intros Hc. unfold int. rewrite foldl_app. cbn [foldl].
  change (code "0") with 48. change (code "9") with 57.
  destruct (Nat.leb_spec 48 (code c)); [|lia].
  destruct (Nat.leb_spec (code c) 57); [|lia].
  cbn [andb]. lia.
Qed.

Lemma int_one c : 48 ≤ code c ≤ 57 → int [c] = code c - 48.
Proof. intros Hc. by rewrite <-(app_nil_l [c]), int_snoc. Qed.

Lemma int_two c1 c2 :
  48 ≤ code c1 ≤ 57 → 48 ≤ code c2 ≤ 57 →
  int [c1; c2] = 10 * (code c1 - 48) + (code c2 - 48).
Proof.
  intros H1 H2. change [c1; c2] with ([c1] ++ [c2]).
  by rewrite int_snoc, int_one.
Qed.

Lemma int_blank c : 48 ≤ code c ≤ 57 → int [" "%char; c] = code c - 48.
Proof.
  intros Hc. change [" "%char; c] with ([" "%char] ++ [c]).
  by rewrite int_snoc.
Qed.

(** Takes membership in a compound matcher apart, down to the character
    classes, and turns the bounds into numbers. *)
Ltac matched :=
  repeat match goal with
    | H : _ ∈ alt _ _ _ |- _ => apply alt_spec in H as [H|H]
    | H : _ ∈ seq _ _ _ |- _ =>
        apply seq_spec in H as (? & ? & ? & ? & ? & ->)
    | H : _ ∈ lit _ _ |- _ => apply range_spec in H as (? & -> & -> & ?)
    | H : _ ∈ digit _ |- _ => apply range_spec in H as (? & -> & -> & ?)
    | H : _ ∈ range _ _ _ |- _ => apply range_spec in H as (? & -> & -> & ?)
    end;
  repeat match goal with
    | H : context [code ?c] |- _ =>
        tryif is_var c then fail else
          (let v := eval vm_compute in (code c) in
           change (code c) with v in H)
    end.

Lemma re_m_spec s t r : (t, r) ∈ re_m s → 1 ≤ int t ≤ 12.
Proof.
  unfold re_m. intros H. matched; simpl app;
    rewrite ?int_two, ?int_one by lia; lia.
Qed.

Lemma re_d_spec s t r : (t, r) ∈ re_d s → 1 ≤ int t ≤ 31.
Proof.
  unfold re_d. intros H. matched; simpl app.
  5: { match goal with
       | Hblank : 32 ≤ code ?c ≤ 32 |- _ =>
           assert (c = " "%char) as ->
             by (rewrite <-(ascii_nat_embedding c),
                   <-(ascii_nat_embedding " ");
                 f_equal; change (nat_of_ascii c) with (code c);
                 change (nat_of_ascii " ") with 32; lia)
       end.
       rewrite int_blank by lia. lia. }
  all: rewrite ?int_two, ?int_one by lia; lia.
Qed.

Lemma re_Y_spec s t r : (t, r) ∈ re_Y s → (Z.of_nat (int t) ≤ 9999)%Z.
Proof.
  unfold re_Y. intros H. matched. simpl app.
  match goal with
  | |- context [int [?a; ?b; ?c; ?d]] =>
      change [a; b; c; d] with ((([a] ++ [b]) ++ [c]) ++ [d])
  end.
  rewrite !int_snoc, int_one by lia. lia.
Qed.

Lemma re_match_spec s m d y rest :
  re_match s = Some (m, d, y, rest) →
  1 ≤ int m ≤ 12 ∧ 1 ≤ int d ≤ 31 ∧ (Z.of_nat (int y) ≤ 9999)%Z.
Proof.
  unfold re_match. intros Hhead%head_Some_elem_of.
  apply list_elem_of_bind in Hhead as ([m' r1] & Hhead & Hm).
  apply list_elem_of_bind in Hhead as ([? r2] & Hhead & _).
  apply list_elem_of_bind in Hhead as ([d' r3] & Hhead & Hd).
  apply list_elem_of_bind in Hhead as ([? r4] & Hhead & _).
  apply list_elem_of_bind in Hhead as ([y' r5] & Hhead & Hy).
  apply list_elem_of_singleton in Hhead as [= -> -> -> ->].
  split; [by eapply re_m_spec|]. split; [by eapply re_d_spec|].
  by eapply re_Y_spec.
Qed.

End matchers.

Lemma strptime_valid (text : string) (d : Datetime.datetime) :
  Datetime.strptime text = Return d → valid_date d.
Proof.
  unfold Datetime.strptime.
  destruct (Datetime.re_match _) as [[[[m dd] y] [|c rest]]|] eqn:Hmatch;
    [|done..].
  apply re_match_spec in Hmatch as (Hm & Hd & Hy).
  destruct (Nat.eqb_spec (Datetime.int y) 0) as [|Hyear]; [done|].
  destruct (Nat.ltb_spec
              (Datetime.days_in_month (Datetime.int y) (Datetime.int m))
              (Datetime.int dd)) as [|Hday]; [done|].
  intros [= <-]. unfold valid_date. simpl. lia.
Qed.

(** X17: when [get_tasks_to_date] returns, the query and every key of
    the mapping are calendar dates: a month from 1 to 12, a day that
    exists in that month of that year (29 February in leap years only)
    and a year from 1 to 9999. *)
Theorem get_tasks_to_date_accepts_calendar_dates_only
    (s : Store) (a : asg_ref) (date : string) (ts : list Task)
    (Hreturns : eval (Assignment.get_tasks_to_date a date) s = Return ts) :
  (∃ d, Datetime.strptime date = Return d ∧ valid_date d)
  ∧ Forall (λ kt, ∃ d, Datetime.strptime kt.1 = Return d ∧ valid_date d)
      (received_tasks (assignment s a)).
Proof.
  unfold eval, Assignment.get_tasks_to_date, bind, get_assignment, lift
    in Hreturns.
  destruct (Datetime.strptime date) as [d|e] eqn:Hdate; [|done].
  simpl in Hreturns.
  pose proof (tasks_before_outcome d (received_tasks (assignment s a)))
    as Hout.
  destruct (Assignment.tasks_before d _) as [ts'|e]; [|done].
  destruct Hout as [Hkeys _].
  split; [exists d; eauto using strptime_valid|].
  eapply Forall_impl; [exact Hkeys|].
  intros kt [dk Hdk]. exists dk. eauto using strptime_valid.
Qed.

Lemma get_tasks_to_date_accepts_calendar_dates_only_witness :
  let s := exec september_and_october blank_store in
  (∃ d, Datetime.strptime "09/30/2022" = Return d ∧ valid_date d)
  ∧ Forall (λ kt, ∃ d, Datetime.strptime kt.1 = Return d ∧ valid_date d)
      (received_tasks (assignment s 0)).
Proof.
  intros s.
  apply (get_tasks_to_date_accepts_calendar_dates_only s 0 "09/30/2022"
           [{["is_done" := VBool true]}]).
  by vm_compute.
Defined.

(** ** Dates written by [strftime] are read back *)

Section round_trip.
Import Datetime.
Local Open Scope nat_scope.

Lemma code_digit_ascii k : k < 10 → code (digit_ascii k) = 48 + k.
Proof.
  intros Hk. unfold code, digit_ascii. apply nat_ascii_embedding. lia.
Qed.

Lemma range_digit_ascii lo hi k rest :
  code lo ≤ 48 + k ≤ code hi → k < 10 →
  range lo hi (digit_ascii k :: rest) = [([digit_ascii k], rest)].
Proof.
  intros Hbounds Hk. unfold range. rewrite code_digit_ascii by done.
  destruct (Nat.leb_spec (code lo) (48 + k)); [|lia].
  destruct (Nat.leb_spec (48 + k) (code hi)); [|lia]. done.
Qed.

Lemma re_Y_digits k1 k2 k3 k4 rest :
  k1 < 10 → k2 < 10 → k3 < 10 → k4 < 10 →
  re_Y (digit_ascii k1 :: digit_ascii k2 :: digit_ascii k3
        :: digit_ascii k4 :: rest)
  = [([digit_ascii k1; digit_ascii k2; digit_ascii k3; digit_ascii k4],
      rest)].
Proof.
  intros H1 H2 H3 H4. unfold re_Y, seq, digit.
  assert (∀ k, k < 10 → code "0" ≤ 48 + k ≤ code "9") as Hdigit
    by (intros k Hk; change (code "0") with 48; change (code "9") with 57;
        lia).
  assert (∀ (A B : Type) (x : A) (f : A → list B), [x] ≫= f = f x)
    as Hbind by (intros; simpl; apply app_nil_r).
  rewrite range_digit_ascii, Hbind by auto. cbv beta iota.
  rewrite range_digit_ascii, Hbind by auto. cbv beta iota.
  rewrite range_digit_ascii, Hbind by auto. cbv beta iota.
  rewrite range_digit_ascii, Hbind by auto. cbv beta iota.
  by rewrite !Hbind.
Qed.

Lemma int_digits k1 k2 k3 k4 :
  k1 < 10 → k2 < 10 → k3 < 10 → k4 < 10 →
  int [digit_ascii k1; digit_ascii k2; digit_ascii k3; digit_ascii k4]
  = 10 * (10 * (10 * k1 + k2) + k3) + k4.
Proof.
  intros H1 H2 H3 H4.
  change [digit_ascii k1; digit_ascii k2; digit_ascii k3; digit_ascii k4]
    with ((([digit_ascii k1] ++ [digit_ascii k2]) ++ [digit_ascii k3])
          ++ [digit_ascii k4]).
  rewrite !int_snoc, int_one by (rewrite code_digit_ascii; lia).
  rewrite !code_digit_ascii by done. lia.
Qed.

Lemma four_digits_bounds y :
  (Z.of_nat y ≤ 9999)%Z →
  y / 1000 < 10 ∧ y / 100 mod 10 < 10 ∧ y / 10 mod 10 < 10 ∧ y mod 10 < 10
  ∧ 10 * (10 * (10 * (y / 1000) + y / 100 mod 10) + y / 10 mod 10)
    + y mod 10 = y.
Proof.
  intros Hy.
  assert (y / 1000 < 10) by (apply Nat.Div0.div_lt_upper_bound; lia).
  assert (∀ n, n mod 10 < 10) as Hmod
    by (intros n; apply Nat.mod_upper_bound; lia).
  pose proof (Hmod (y / 100)). pose proof (Hmod (y / 10)). pose proof (Hmod y).
  pose proof (Nat.div_mod_eq y 10). pose proof (Nat.div_mod_eq (y / 10) 10).
  pose proof (Nat.div_mod_eq (y / 100) 10).
  assert (y / 10 / 10 = y / 100) by (by rewrite Nat.Div0.div_div).
  assert (y / 100 / 10 = y / 1000) by (by rewrite Nat.Div0.div_div).
  lia.
Qed.

Lemma re_Y_four y rest :
  (Z.of_nat y ≤ 9999)%Z →
  re_Y (four_digits y ++ rest) = [(four_digits y, rest)].
Proof.
  intros (? & ? & ? & ? & _)%four_digits_bounds.
  by apply re_Y_digits.
Qed.

Lemma int_four y : (Z.of_nat y ≤ 9999)%Z → int (four_digits y) = y.
Proof.
  intros (? & ? & ? & ? & Hsum)%four_digits_bounds.
  unfold four_digits. by rewrite int_digits.
Qed.

(** The month and the slash after it, with what follows left to [k]. *)
Lemma month_then_slash {X} m rest (k : list ascii → list ascii → list X) :
  1 ≤ m ≤ 12 →
  (re_m (two_digits m ++ "/"%char :: rest)
   ≫= λ '(t, r1), lit "/" r1 ≫= λ '(_, r2), k t r2)
  = k (two_digits m) rest.
Proof.
  intros Hm.
  do 13 (destruct m as [|m]; [try lia; simpl; by rewrite ?app_nil_r|]).
  lia.
Qed.

Lemma day_then_slash {X} d rest (k : list ascii → list ascii → list X) :
  1 ≤ d ≤ 31 →
  (re_d (two_digits d ++ "/"%char :: rest)
   ≫= λ '(t, r1), lit "/" r1 ≫= λ '(_, r2), k t r2)
  = k (two_digits d) rest.
Proof.
  intros Hd.
  do 32 (destruct d as [|d]; [try lia; simpl; by rewrite ?app_nil_r|]).
  lia.
Qed.

Lemma int_two_digits n : n < 100 → int (two_digits n) = n.
Proof.
  intros Hn. unfold two_digits.
  assert (n / 10 < 10) by (apply Nat.Div0.div_lt_upper_bound; lia).
  pose proof (Nat.mod_upper_bound n 10 ltac:(lia)).
  rewrite int_two by (rewrite code_digit_ascii; lia).
  rewrite !code_digit_ascii by lia.
  pose proof (Nat.div_mod_eq n 10). lia.
Qed.

Lemma days_in_month_le_31 y m : days_in_month y m ≤ 31.
Proof.
  unfold days_in_month.
  do 12 (destruct m as [|m]; [try destruct (is_leap y); lia|]). lia.
Qed.

Lemma strptime_strftime (d : datetime) :
  valid_date d → strptime (strftime d) = Return d.
Proof.
  intros (Hy1 & Hy2 & Hm & Hd).
  pose proof (days_in_month_le_31 (year d) (month d)).
  unfold strptime, strftime.
  rewrite String.list_ascii_of_string_of_list_ascii. unfold re_match.
  rewrite (month_then_slash (month d) _
             (λ m r2, re_d r2 ≫= λ '(dd, r3), lit "/" r3 ≫= λ '(_, r4),
                      re_Y r4 ≫= λ '(y, r5), [(m, dd, y, r5)])) by done.
  rewrite (day_then_slash (day d) _
             (λ dd r4, re_Y r4 ≫= λ '(y, r5),
                       [(two_digits (month d), dd, y, r5)])) by lia.
  rewrite <-(app_nil_r (four_digits (year d))), re_Y_four by done.
  assert (∀ (A B : Type) (x : A) (f : A → list B), [x] ≫= f = f x)
    as -> by (intros; simpl; apply app_nil_r).
  rewrite app_nil_r, head_cons. cbv beta iota.
  rewrite int_four, !int_two_digits by lia.
  destruct (Nat.eqb_spec (year d) 0); [lia|].
  destruct (Nat.ltb_spec (days_in_month (year d) (month d)) (day d)); [lia|].
  by destruct d.
Qed.

End round_trip.

(** X18: a calendar date of a year from 1000 on, written the way
    [Project.__init__] writes the start date, with [strftime] and the
    format "%m/%d/%Y", is read back
    by [get_tasks_to_date] as that date: as a query it is accepted, and
    as a key it takes part in the comparison with its own value, so that
    the task is returned exactly when its date is before the query's. *)
Theorem strftime_dates_are_read_back
    (s : Store) (a : asg_ref) (query : Datetime.datetime)
    (keys : list Datetime.datetime)
    (Hquery : valid_date query ∧ four_digit_year query)
    (Hvalid : Forall (λ d, valid_date d ∧ four_digit_year d) keys)
    (Hkeys : (received_tasks (assignment s a)).*1 = strftime <$> keys) :
  Datetime.strptime (strftime query) = Return query
  ∧ Assignment.get_tasks_to_date a (strftime query) s
    = (Return
         ((filter (λ dt, Datetime.lt dt.1 query)
             (zip keys (received_tasks (assignment s a)).*2)).*2), s).
Proof.
  destruct Hquery as [Hquery _].
  split; [by apply strptime_strftime|].
  unfold Assignment.get_tasks_to_date, bind, get_assignment, lift.
  rewrite strptime_strftime by done. simpl. f_equal.
  revert keys Hvalid Hkeys.
  induction (received_tasks (assignment s a)) as [|[k task] rest IH];
    intros [|key keys] Hvalid Hkeys; try done.
  apply Forall_cons in Hvalid as [[Hkey _] Hvalid].
  injection Hkeys as -> Hkeys.
  change (Assignment.tasks_before query ((strftime key, task) :: rest))
    with (match Datetime.strptime (strftime key) with
          | Raise e => Raise e
          | Return d =>
              match Assignment.tasks_before query rest with
              | Raise e => Raise e
              | Return vs =>
                  Return (if Datetime.lt d query then task :: vs else vs)
              end
          end).
  rewrite strptime_strftime, (IH keys) by done.
  change (zip (key :: keys) ((strftime key, task) :: rest).*2)
    with ((key, task) :: zip keys rest.*2).
  rewrite filter_cons. cbn [fst].
  by destruct (decide (Datetime.lt key query)) as [Hyes|Hno];
    destruct (Datetime.lt key query).
Qed.

Lemma strftime_dates_are_read_back_witness :
  let s := exec september_and_october blank_store in
  let september := {| Datetime.year := 2022; Datetime.month := 9;
                      Datetime.day := 1 |} in
  let october := {| Datetime.year := 2022; Datetime.month := 10;
                    Datetime.day := 1 |} in
  let query := {| Datetime.year := 2022; Datetime.month := 9;
                  Datetime.day := 30 |} in
  Datetime.strptime (strftime query) = Return query
  ∧ Assignment.get_tasks_to_date 0 (strftime query) s
    = (Return
         ((filter (λ dt, Datetime.lt dt.1 query)
             (zip [september; october]
                (received_tasks (assignment s 0)).*2)).*2), s).
Proof.
  intros s september october query.
  apply (strftime_dates_are_read_back s 0 query [september; october]).
  - unfold valid_date, four_digit_year. simpl. lia.
  - unfold valid_date, four_digit_year. repeat constructor; simpl; lia.
  - reflexivity.
Defined.

(** ** What the reading methods answer *)

(** X19: the text that [__str__], [test_feature] and [discuss_progress]
    return for objects that exist already is the same after any sequence
    of constructor and method calls: none of the calls changes a name, a
    description or a developer's assignment list.  The three methods
    return for every state of the objects, whatever the status or the
    tasks of the assignment. *)
Theorem answers_of_readers_are_stable
    (cs : list call) (s : Store)
    (D : dev_ref) (q : qa_ref) (a : asg_ref) (manager : pm_ref)
    (HD : D < next_ref s) (Hq : q < next_ref s) (Ha : a < next_ref s)
    (Hmanager : manager < next_ref s)
    (Hassignments : Forall (λ x, x < next_ref s)
                      (assignments (developer s D))) :
  let s1 := perform_all cs s in
  eval (Developer.to_str D) s1
  = Return ("Developer " +:+ dev_full_name (developer s D))
  ∧ eval (QAEngineer.test_feature q a) s1
    = Return ("Assignment " +:+ description (assignment s a)
              +:+ " has been tested by " +:+ qa_full_name (qa_engineer s q))
  ∧ eval (ProjectManager.discuss_progress manager D) s1
    = eval (ProjectManager.discuss_progress manager D) s.
Proof.
  intros s1. destruct (perform_all_step cs s) as [_ Hkeep]. fold s1 in Hkeep.
  destruct (Hkeep D HD) as (HfixD & _).
  destruct (Hkeep q Hq) as (_ & _ & _ & Hqa & _).
  destruct (Hkeep a Ha) as (_ & _ & Hasg & _).
  destruct (Hkeep manager Hmanager) as (_ & _ & _ & _ & Hpm).
  unfold dev_fixed, asg_fixed in *.
  unfold eval, Developer.to_str, QAEngineer.test_feature,
    ProjectManager.discuss_progress, bind, ret, get_developer,
    get_qa_engineer, get_assignment, get_project_manager. simpl.
  rewrite Hqa, Hpm.
  assert (dev_full_name (developer s1 D) = dev_full_name (developer s D)
          ∧ assignments (developer s1 D) = assignments (developer s D))
    as [-> ->] by (split; congruence).
  assert (description (assignment s1 a) = description (assignment s a))
    as -> by congruence.
  split; [done|]. split; [done|]. do 4 f_equal.
  apply Forall_fmap_ext_1. eapply Forall_impl; [exact Hassignments|].
  intros x Hx. destruct (Hkeep x Hx) as (_ & _ & Hfixed & _).
  unfold asg_fixed in Hfixed. congruence.
Qed.

Lemma answers_of_readers_are_stable_witness :
  let s := exec (alice_and_website "09/30/2022") blank_store in
  let s1 := perform_all [AddDeveloper 1 0; NewAssignment "Refactor";
                         CalculateStatus 2; RemoveDeveloper 1 0] s in
  eval (Developer.to_str 0) s1
  = Return ("Developer " +:+ dev_full_name (developer s 0))
  ∧ eval (QAEngineer.test_feature 0 1) s1
    = Return ("Assignment " +:+ description (assignment s 1)
              +:+ " has been tested by " +:+ qa_full_name (qa_engineer s 0))
  ∧ eval (ProjectManager.discuss_progress 1 0) s1
    = eval (ProjectManager.discuss_progress 1 0) s.
Proof.
  intros s.
  assert (next_ref s = 2) as Hnext by (by vm_compute).
  assert (assignments (developer s 0) = []) as Hnone by (by vm_compute).
  apply (answers_of_readers_are_stable
           [AddDeveloper 1 0; NewAssignment "Refactor";
            CalculateStatus 2; RemoveDeveloper 1 0] s 0 0 1 1);
    rewrite ?Hnext, ?Hnone; [lia..|constructor].
Defined.
